(** * flwp: the prompt / story-idea flow of [src/App.tsx]

    The [App] component keeps five pieces of React state and changes
    them from four event handlers.  One handler, [handleGenerateIdeas],
    is asynchronous: it suspends at [await generateStoryIdeas(...)] and
    its [try]/[catch]/[finally] tail runs later, after other events may
    have been handled.  Handlers are embedded as small programs over the
    state setters with one suspension point, and the rendered page as a
    transition system whose events are the controls the JSX offers. *)

From Stdlib Require Import List String Ascii Bool Arith Lia.
Import ListNotations.
Local Open Scope string_scope.
Local Open Scope list_scope.

(** ** Data *)

(** Modelled from the spec: the declaration of [Prompt] in [./types] is
    missing; the spec gives it a genre label and a prompt text, and the
    component reads [p.genre]. *)
Record Prompt : Type := mkPrompt { genre : string; text : string }.

(** Module-level values the component closes over: [PROMPTS] and
    [GENRES] are imported from [./constants], [hasApiKey] is
    [!!process.env.API_KEY].  None of the three changes while the page
    lives, so they are carried as one environment. *)
Record Env : Type := mkEnv {
  PROMPTS : list Prompt;
  GENRES : list string;
  hasApiKey : bool
}.

(** The five [useState] cells. *)
Record State : Type := mkState {
  currentPrompt : option Prompt;
  storyIdeas : list string;
  isLoadingIdeas : bool;
  error : option string;
  selectedGenre : string
}.

(** The [useState] initial values. *)
Definition initialState : State :=
  {| currentPrompt := None;
     storyIdeas := [];
     isLoadingIdeas := false;
     error := None;
     selectedGenre := "All" |}.

(** What [catch (e: any)] receives.  The promise can reject with any
    value: on [null] and [undefined] reading [e.message] throws; every
    other value has a [message] that is a string or is missing. *)
Inductive Thrown : Type :=
| thrownNullish
| thrownValue (message : option string).

(** How the promise returned by [generateStoryIdeas] settles. *)
Inductive Outcome : Type :=
| Resolved (ideas : list string)
| Rejected (e : Thrown).

(** A value of [Math.random()]: a fraction [num/den] of the half-open
    unit interval.  The product with the list length and [Math.floor]
    are taken exactly; the code rounds the product to a double first,
    and that rounding is not modelled. *)
Record Random : Type := mkRandom {
  num : nat;
  den : nat;
  below_one : (num <? den)%nat = true
}.

(** [Math.floor(Math.random() * n)]. *)
Definition Math_floor_random_times (r : Random) (n : nat) : nat :=
  (num r * n) / den r.

(** ** State setters *)

Inductive Op : Type :=
| setCurrentPrompt (v : option Prompt)
| setStoryIdeas (v : list string)
| setIsLoadingIdeas (v : bool)
| setError (v : option string)
| setSelectedGenre (v : string).

Definition apply (o : Op) (s : State) : State :=
  match o with
  | setCurrentPrompt v =>
      {| currentPrompt := v; storyIdeas := storyIdeas s;
         isLoadingIdeas := isLoadingIdeas s; error := error s;
         selectedGenre := selectedGenre s |}
  | setStoryIdeas v =>
      {| currentPrompt := currentPrompt s; storyIdeas := v;
         isLoadingIdeas := isLoadingIdeas s; error := error s;
         selectedGenre := selectedGenre s |}
  | setIsLoadingIdeas v =>
      {| currentPrompt := currentPrompt s; storyIdeas := storyIdeas s;
         isLoadingIdeas := v; error := error s;
         selectedGenre := selectedGenre s |}
  | setError v =>
      {| currentPrompt := currentPrompt s; storyIdeas := storyIdeas s;
         isLoadingIdeas := isLoadingIdeas s; error := v;
         selectedGenre := selectedGenre s |}
  | setSelectedGenre v =>
      {| currentPrompt := currentPrompt s; storyIdeas := storyIdeas s;
         isLoadingIdeas := isLoadingIdeas s; error := error s;
         selectedGenre := v |}
  end.

(** ** Handler programs

    A handler is a sequence of setter calls that either returns or
    suspends at [await generateStoryIdeas(arg)] with the rest of its
    body as a continuation of the outcome. *)
Inductive Prog : Type :=
| Return
| Do (o : Op) (k : Prog)
| Await (arg : Prompt) (k : Outcome -> Prog).

Notation "o ;; k" := (Do o k) (at level 61, right associativity).

(** What happened during a run: setter calls and service calls. *)
Inductive Act : Type :=
| Setter (o : Op)
| Call_generateStoryIdeas (arg : Prompt).

(** Runs a handler to its end, the service answering through [svc]. *)
Fixpoint run (svc : Prompt -> Outcome) (pr : Prog) (s : State) : State :=
  match pr with
  | Return => s
  | Do o k => run svc k (apply o s)
  | Await arg k => run svc (k (svc arg)) s
  end.

(** The actions of that run, in order. *)
Fixpoint trace (svc : Prompt -> Outcome) (pr : Prog) : list Act :=
  match pr with
  | Return => []
  | Do o k => Setter o :: trace svc k
  | Await arg k => Call_generateStoryIdeas arg :: trace svc (k (svc arg))
  end.

Definition is_call (a : Act) : bool :=
  match a with Call_generateStoryIdeas _ => true | Setter _ => false end.

(** Number of times a run calls [generateStoryIdeas]. *)
Definition calls (svc : Prompt -> Outcome) (pr : Prog) : nat :=
  List.length (filter is_call (trace svc pr)).

(** Runs a handler up to its first suspension. *)
Fixpoint exec (pr : Prog) (s : State)
  : State * option (Prompt * (Outcome -> Prog)) :=
  match pr with
  | Return => (s, None)
  | Do o k => exec k (apply o s)
  | Await arg k => (s, Some (arg, k))
  end.

(** ** The handlers of [App] *)

Definition dquote : string := String (ascii_of_nat 34) EmptyString.

(** The template literal of line 28. *)
Definition noPromptsMessage (g : string) : string :=
  ("No prompts found for the " ++ dquote ++ g ++ dquote
     ++ " genre. Please select another.")%string.

Definition apiKeyMessage : string :=
  "AI features are disabled. Please configure your API key.".

Definition unknownErrorMessage : string := "An unknown error occurred.".

(** [selectedGenre === 'All' ? PROMPTS : PROMPTS.filter(...)]. *)
Definition filteredPrompts (env : Env) (g : string) : list Prompt :=
  if g =? "All" then PROMPTS env
  else filter (fun p => genre p =? g) (PROMPTS env).

(** [handleGeneratePrompt]; indexing past the end of a JS array gives
    [undefined], which [nth_error] renders as [None]. *)
Definition handleGeneratePrompt (env : Env) (r : Random) (s : State) : Prog :=
  setError None ;;
  let filtered := filteredPrompts env (selectedGenre s) in
  if (List.length filtered =? 0)%nat then
    setError (Some (noPromptsMessage (selectedGenre s))) ;; Return
  else
    let randomIndex := Math_floor_random_times r (List.length filtered) in
    setCurrentPrompt (nth_error filtered randomIndex) ;;
    setStoryIdeas [] ;;
    Return.

(** [e.message || "An unknown error occurred."]: a missing message and
    the empty string are both falsy. *)
Definition message_or (m : option string) (dflt : string) : string :=
  match m with
  | Some (String c rest) => String c rest
  | Some EmptyString => dflt
  | None => dflt
  end.

(** The [finally] block. *)
Definition handleGenerateIdeas_finally : Prog :=
  setIsLoadingIdeas false ;; Return.

(** What [handleGenerateIdeas] does once the awaited promise settles:
    the rest of the [try] block or the [catch] block, then [finally].
    When [e] is [null] or [undefined] the [catch] block throws at
    [e.message], before [setError] is called; [finally] runs all the
    same, and the handler's own promise, which nothing awaits, rejects. *)
Definition handleGenerateIdeas_resume (o : Outcome) : Prog :=
  match o with
  | Resolved ideas => setStoryIdeas ideas ;; handleGenerateIdeas_finally
  | Rejected thrownNullish => handleGenerateIdeas_finally
  | Rejected (thrownValue message) =>
      setError (Some (message_or message unknownErrorMessage)) ;;
      handleGenerateIdeas_finally
  end.

(** [handleGenerateIdeas], reading [currentPrompt] from the render it
    was created in. *)
Definition handleGenerateIdeas (env : Env) (s : State) : Prog :=
  match currentPrompt s with
  | None => Return
  | Some p =>
      if negb (hasApiKey env) then
        setError (Some apiKeyMessage) ;; Return
      else
        setIsLoadingIdeas true ;;
        setError None ;;
        setStoryIdeas [] ;;
        Await p handleGenerateIdeas_resume
  end.

(** [onChange] of the genre [<select>]. *)
Definition onGenreChange (value : string) : Prog :=
  setSelectedGenre value ;;
  setCurrentPrompt None ;;
  setStoryIdeas [] ;;
  setError None ;;
  Return.

(** [onClick] of the Change Genre button. *)
Definition onChangeGenreClick : Prog :=
  setCurrentPrompt None ;;
  setStoryIdeas [] ;;
  Return.

(** ** The rendered page

    Besides the state cells the page has the calls to
    [generateStoryIdeas] that have not settled yet, each with the
    continuation of the handler that awaits it. *)
Record Page : Type := mkPage {
  state : State;
  inFlight : list (Prompt * (Outcome -> Prog))
}.

Definition initialPage : Page :=
  {| state := initialState; inFlight := [] |}.

(** What the user or the event loop can do next. *)
Inductive Event : Type :=
| SelectGenre (value : string)
| ClickGeneratePrompt (r : Random)
| ClickChangeGenre
| ClickSparkCreativity
| Settle (i : nat) (o : Outcome).

(** [!currentPrompt] decides which branch of the JSX is rendered. *)
Definition promptShown (s : State) : bool :=
  match currentPrompt s with Some _ => true | None => false end.

(** [disabled={isLoadingIdeas || !hasApiKey}]. *)
Definition sparkDisabled (env : Env) (s : State) : bool :=
  isLoadingIdeas s || negb (hasApiKey env).

(** Runs a handler (or a resumed continuation) on the page state; a
    call it suspends at joins the calls in flight. *)
Definition dispatch (pr : Prog) (pending : list (Prompt * (Outcome -> Prog)))
    (s : State) : Page :=
  match exec pr s with
  | (s', Some c) => {| state := s'; inFlight := pending ++ [c] |}
  | (s', None) => {| state := s'; inFlight := pending |}
  end.

Definition remove_nth {A : Type} (i : nat) (l : list A) : list A :=
  firstn i l ++ skipn (S i) l.

(** One event.  A control that is not rendered, or is disabled, cannot
    be used: the genre selector and Generate a Prompt exist only while
    no prompt is shown, Change Genre and Spark Creativity only while one
    is, and Spark Creativity is disabled as the JSX says. *)
Definition step (env : Env) (ev : Event) (pg : Page) : option Page :=
  let s := state pg in
  match ev with
  | SelectGenre value =>
      if negb (promptShown s) && existsb (String.eqb value) (GENRES env)
      then Some (dispatch (onGenreChange value) (inFlight pg) s)
      else None
  | ClickGeneratePrompt r =>
      if negb (promptShown s)
      then Some (dispatch (handleGeneratePrompt env r s) (inFlight pg) s)
      else None
  | ClickChangeGenre =>
      if promptShown s
      then Some (dispatch onChangeGenreClick (inFlight pg) s)
      else None
  | ClickSparkCreativity =>
      if promptShown s && negb (sparkDisabled env s)
      then Some (dispatch (handleGenerateIdeas env s) (inFlight pg) s)
      else None
  | Settle i o =>
      match nth_error (inFlight pg) i with
      | Some (_, k) => Some (dispatch (k o) (remove_nth i (inFlight pg)) s)
      | None => None
      end
  end.

Fixpoint steps (env : Env) (evs : list Event) (pg : Page) : option Page :=
  match evs with
  | [] => Some pg
  | ev :: rest =>
      match step env ev pg with
      | Some pg' => steps env rest pg'
      | None => None
      end
  end.

Definition reachable (env : Env) (pg : Page) : Prop :=
  exists evs, steps env evs initialPage = Some pg.

(** The invariant of the spec's data model, as a test on a state. *)
Definition ideasNeedPrompt (s : State) : bool :=
  match storyIdeas s with
  | [] => true
  | _ :: _ => promptShown s
  end.

(** What holds of the calls in flight on every page the user can get
    to: there is none and nothing is loading, or there is exactly one,
    awaited by the tail of [handleGenerateIdeas], the loading flag is up
    and the idea list is empty. *)
Definition pageInv (pg : Page) : Prop :=
  (inFlight pg = [] /\ isLoadingIdeas (state pg) = false)
  \/ (exists p, inFlight pg = [(p, handleGenerateIdeas_resume)]
                /\ isLoadingIdeas (state pg) = true
                /\ storyIdeas (state pg) = []).

(** ** What [App] renders

    The JSX returned by [App] (lines 82 to 165) without its styling:
    which controls and blocks are on the page for a given state. *)

(** The two branches of [!currentPrompt ? ... : ...]: the genre
    [<select>] (its value and its options) with Generate a Prompt, or
    the prompt card with Change Genre and the Spark Creativity button
    (its [disabled] attribute and its label). *)
Inductive Panel : Type :=
| IdlePanel (selectValue : string) (options : list string)
| PromptPanel (prompt : Prompt) (sparkIsDisabled : bool) (sparkLabel : string).

(** The block under [error &&]: the message and whether the line about
    the API_KEY variable follows it. *)
Record ErrorBanner : Type := mkErrorBanner {
  bannerText : string;
  apiKeyHint : bool
}.

(** [<IdeaCard key={index} idea={idea} index={index} />]. *)
Record IdeaCard : Type := mkIdeaCard {
  cardKey : nat;
  cardIdea : string;
  cardIndex : nat
}.

Record View : Type := mkView {
  panel : Panel;
  errorBanner : option ErrorBanner;
  spinner : bool;
  storyConcepts : list IdeaCard
}.

(** [l.map((x, index) => f(x, index))], counting from [from]. *)
Fixpoint mapWithIndex {A B : Type} (f : A -> nat -> B) (from : nat)
    (l : list A) : list B :=
  match l with
  | [] => []
  | x :: rest => f x from :: mapWithIndex f (S from) rest
  end.

(** [error && ...]: [null] and the empty string render nothing. *)
Definition renderError (env : Env) (s : State) : option ErrorBanner :=
  match error s with
  | Some (String c rest) =>
      Some {| bannerText := String c rest;
              apiKeyHint := negb (hasApiKey env) |}
  | Some EmptyString => None
  | None => None
  end.

(** [storyIdeas.length > 0 && ...storyIdeas.map(...)]. *)
Definition renderIdeas (s : State) : list IdeaCard :=
  if (0 <? List.length (storyIdeas s))%nat
  then mapWithIndex
         (fun idea index =>
            {| cardKey := index; cardIdea := idea; cardIndex := index |})
         0 (storyIdeas s)
  else [].

Definition render (env : Env) (s : State) : View :=
  {| panel :=
       match currentPrompt s with
       | None => IdlePanel (selectedGenre s) (GENRES env)
       | Some p =>
           PromptPanel p
             (isLoadingIdeas s || negb (hasApiKey env))
             (if isLoadingIdeas s then "Generating Ideas..."
              else "Spark Creativity")
       end;
     errorBanner := renderError env s;
     spinner := isLoadingIdeas s;
     storyConcepts := renderIdeas s |}.

(** ** Counting events *)

Definition isSpark (ev : Event) : bool :=
  match ev with ClickSparkCreativity => true | _ => false end.

Definition isSettle (ev : Event) : bool :=
  match ev with Settle _ _ => true | _ => false end.

(** The prompt shown, when there is one, comes from [PROMPTS] and
    belongs to the selected genre unless that is ['All']. *)
Definition promptFitsGenre (env : Env) (s : State) : Prop :=
  forall p, currentPrompt s = Some p ->
            In p (PROMPTS env)
            /\ (selectedGenre s <> "All" -> genre p = selectedGenre s).

(** ** Sample values, used to instantiate the theorems *)

Definition samplePrompts : list Prompt :=
  [ {| genre := "Fantasy"; text := "A dragon opens a bakery." |};
    {| genre := "Sci-Fi"; text := "The last radio signal answers back." |};
    {| genre := "Fantasy"; text := "A map that redraws itself." |} ].

Definition sampleEnv : Env :=
  {| PROMPTS := samplePrompts;
     GENRES := ["All"; "Fantasy"; "Sci-Fi"; "Mystery"];
     hasApiKey := true |}.

Definition sampleEnvNoKey : Env :=
  {| PROMPTS := samplePrompts;
     GENRES := ["All"; "Fantasy"; "Sci-Fi"; "Mystery"];
     hasApiKey := false |}.

Definition firstDraw : Random := {| num := 0; den := 1; below_one := eq_refl |}.

Definition lateDraw : Random := {| num := 9; den := 10; below_one := eq_refl |}.

Definition sampleIdeas : list string :=
  ["The bakery burns down twice a week."; "Customers pay in gold teeth."].

Definition sampleShown : State :=
  {| currentPrompt := nth_error samplePrompts 1;
     storyIdeas := ["An older idea."];
     isLoadingIdeas := false;
     error := Some "stale";
     selectedGenre := "Sci-Fi" |}.

Definition sampleMystery : State :=
  {| currentPrompt := None;
     storyIdeas := [];
     isLoadingIdeas := false;
     error := None;
     selectedGenre := "Mystery" |}.

Definition serviceDown (_ : Prompt) : Outcome :=
  Rejected (thrownValue (Some "503 Service Unavailable")).

Definition serviceRejectsUndefined (_ : Prompt) : Outcome :=
  Rejected thrownNullish.

Definition serviceUp (_ : Prompt) : Outcome := Resolved sampleIdeas.

Definition sampleLoading : Page :=
  {| state := {| currentPrompt := nth_error samplePrompts 0;
                 storyIdeas := [];
                 isLoadingIdeas := true;
                 error := None;
                 selectedGenre := "All" |};
     inFlight := [({| genre := "Fantasy"; text := "A dragon opens a bakery." |},
                   handleGenerateIdeas_resume)] |}.

Definition sampleIdle : State :=
  {| currentPrompt := None;
     storyIdeas := [];
     isLoadingIdeas := false;
     error := Some "stale";
     selectedGenre := "Fantasy" |}.

(** * Properties *)

(** ** Prompt selection *)

Lemma Math_floor_random_times_lt (r : Random) (n : nat) :
  0 < n -> Math_floor_random_times r n < n.
Proof.
  intros Hn. unfold Math_floor_random_times.
  pose proof (below_one r) as Hr. apply Nat.ltb_lt in Hr.
  apply Nat.Div0.div_lt_upper_bound. nia.
Qed.

Lemma filteredPrompts_sound (env : Env) (g : string) (p : Prompt) :
  In p (filteredPrompts env g) ->
  In p (PROMPTS env) /\ (g <> "All" -> genre p = g).
Proof.
  unfold filteredPrompts. destruct (g =? "All") eqn:Hall.
  - apply String.eqb_eq in Hall. intros Hin. split; [exact Hin | congruence].
  - intros Hin. apply filter_In in Hin. destruct Hin as [Hin Hg].
    apply String.eqb_eq in Hg. split; [exact Hin | intros _; exact Hg].
Qed.

Lemma filteredPrompts_none (env : Env) (g : string) :
  g <> "All" ->
  (forall p, In p (PROMPTS env) -> genre p <> g) ->
  filteredPrompts env g = [].
Proof.
  intros Hall Hno. unfold filteredPrompts.
  apply String.eqb_neq in Hall. rewrite Hall.
  induction (PROMPTS env) as [|q l IH]; simpl; [reflexivity|].
  destruct (genre q =? g) eqn:Hq.
  - apply String.eqb_eq in Hq. exfalso. apply (Hno q); [left; reflexivity | exact Hq].
  - apply IH. intros p Hp. apply Hno. right. exact Hp.
Qed.

Lemma length_zero_nil {A : Type} (l : list A) :
  (List.length l =? 0)%nat = true <-> l = [].
Proof.
  destruct l; simpl; split; intros H; try reflexivity; discriminate.
Qed.

(** The draw of [handleGeneratePrompt] always lands inside the filtered
    list. *)
Lemma randomIndex_in_range (l : list Prompt) (r : Random) :
  l <> [] ->
  exists p, nth_error l (Math_floor_random_times r (List.length l)) = Some p
            /\ In p l.
Proof.
  intros Hl.
  assert (Hlen : 0 < List.length l) by (destruct l; [congruence | simpl; lia]).
  pose proof (Math_floor_random_times_lt r _ Hlen) as Hlt.
  destruct (nth_error l (Math_floor_random_times r (List.length l))) as [p|] eqn:Hn.
  - exists p. split; [reflexivity | eapply nth_error_In; exact Hn].
  - apply nth_error_None in Hn. lia.
Qed.

(** C2: whatever [handleGeneratePrompt] passes to [setCurrentPrompt] is a
    prompt (never [undefined]) taken from [PROMPTS], and when the
    selected genre is not ['All'] its genre is the selected genre. *)
Theorem handleGeneratePrompt_draws_from_PROMPTS
    (env : Env) (svc : Prompt -> Outcome) (r : Random) (s : State)
    (v : option Prompt) :
  In (Setter (setCurrentPrompt v)) (trace svc (handleGeneratePrompt env r s)) ->
  exists p, v = Some p
            /\ currentPrompt (run svc (handleGeneratePrompt env r s) s) = Some p
            /\ In p (PROMPTS env)
            /\ (selectedGenre s <> "All" -> genre p = selectedGenre s).
Proof.
  unfold handleGeneratePrompt.
  destruct (List.length (filteredPrompts env (selectedGenre s)) =? 0)%nat eqn:Hlen.
  - simpl. intros [H | [H | []]]; discriminate.
  - assert (Hne : filteredPrompts env (selectedGenre s) <> []).
    { intros Hnil. rewrite Hnil in Hlen. discriminate. }
    destruct (randomIndex_in_range _ r Hne) as [p [Hnth Hin]].
    simpl. intros [H | [H | [H | []]]]; try discriminate.
    injection H as <-. exists p.
    destruct (filteredPrompts_sound _ _ _ Hin) as [HP Hg].
    repeat split; assumption.
Qed.

Lemma handleGeneratePrompt_draws_from_PROMPTS_witness :
  exists p,
    nth_error samplePrompts 1 = Some p
    /\ currentPrompt
         (run serviceUp (handleGeneratePrompt sampleEnv lateDraw sampleShown)
              sampleShown) = Some p
    /\ In p (PROMPTS sampleEnv)
    /\ (selectedGenre sampleShown <> "All" -> genre p = selectedGenre sampleShown).
Proof.
  apply (handleGeneratePrompt_draws_from_PROMPTS
           sampleEnv serviceUp lateDraw sampleShown (nth_error samplePrompts 1)).
  simpl. right. left. reflexivity.
Defined.

(** C9: when the filter of [handleGeneratePrompt] leaves no prompt for
    the selected genre, the handler only reports it: the error is the
    message of line 28, which contains the selected genre, and the
    current prompt, the idea list and the other cells keep their
    values. *)
Theorem handleGeneratePrompt_no_match
    (env : Env) (svc : Prompt -> Outcome) (r : Random) (s : State) :
  filteredPrompts env (selectedGenre s) = [] ->
  let s' := run svc (handleGeneratePrompt env r s) s in
  error s' = Some (noPromptsMessage (selectedGenre s))
  /\ (exists pre post,
        noPromptsMessage (selectedGenre s)
        = (pre ++ selectedGenre s ++ post)%string)
  /\ currentPrompt s' = currentPrompt s
  /\ storyIdeas s' = storyIdeas s
  /\ isLoadingIdeas s' = isLoadingIdeas s
  /\ selectedGenre s' = selectedGenre s
  /\ calls svc (handleGeneratePrompt env r s) = 0.
Proof.
  intros Hnil. unfold handleGeneratePrompt. rewrite Hnil. simpl.
  repeat split.
  exists ("No prompts found for the " ++ dquote)%string,
         (dquote ++ " genre. Please select another.")%string.
  reflexivity.
Qed.

Lemma handleGeneratePrompt_no_match_witness :
  let s' := run serviceUp (handleGeneratePrompt sampleEnv firstDraw sampleMystery)
                sampleMystery in
  error s' = Some (noPromptsMessage "Mystery")
  /\ (exists pre post,
        noPromptsMessage "Mystery" = (pre ++ "Mystery" ++ post)%string)
  /\ currentPrompt s' = None
  /\ storyIdeas s' = []
  /\ isLoadingIdeas s' = false
  /\ selectedGenre s' = "Mystery"
  /\ calls serviceUp (handleGeneratePrompt sampleEnv firstDraw sampleMystery) = 0.
Proof.
  apply (handleGeneratePrompt_no_match sampleEnv serviceUp firstDraw sampleMystery).
  reflexivity.
Defined.

(** ** Calls in flight *)

Lemma exec_handleGeneratePrompt (env : Env) (r : Random) (s : State) :
  exists s', exec (handleGeneratePrompt env r s) s = (s', None)
             /\ isLoadingIdeas s' = isLoadingIdeas s
             /\ (storyIdeas s' = storyIdeas s \/ storyIdeas s' = [])
             /\ (currentPrompt s' = currentPrompt s \/ storyIdeas s' = []).
Proof.
  unfold handleGeneratePrompt.
  destruct (List.length (filteredPrompts env (selectedGenre s)) =? 0)%nat;
    simpl; eexists; (split; [reflexivity|]); simpl; auto.
Qed.

Lemma step_pageInv (env : Env) (ev : Event) (pg pg' : Page) :
  pageInv pg -> step env ev pg = Some pg' -> pageInv pg'.
Proof.
  destruct pg as [[cp ideas ld err g] pend]. unfold pageInv, step. simpl.
  intros Hinv Hstep. destruct ev.
  - (* SelectGenre *)
    destruct (negb _ && _); [|discriminate]. injection Hstep as <-.
    unfold dispatch. simpl.
    destruct Hinv as [[-> ->] | [p [-> [-> ->]]]]; [left | right; exists p]; auto.
  - (* ClickGeneratePrompt *)
    destruct (negb _); [|discriminate]. injection Hstep as <-.
    unfold dispatch.
    destruct (exec_handleGeneratePrompt env r (mkState cp ideas ld err g))
      as [s' [-> [Hld [Hid _]]]].
    simpl in *.
    destruct Hinv as [[-> ->] | [p [-> [-> ->]]]]; [left | right; exists p].
    + auto.
    + repeat split; auto. destruct Hid; assumption.
  - (* ClickChangeGenre *)
    destruct (promptShown _); [|discriminate]. injection Hstep as <-.
    unfold dispatch. simpl.
    destruct Hinv as [[-> ->] | [p [-> [-> ->]]]]; [left | right; exists p]; auto.
  - (* ClickSparkCreativity *)
    unfold promptShown, sparkDisabled, handleGenerateIdeas in Hstep.
    simpl in Hstep.
    destruct cp as [p|]; simpl in Hstep; [|discriminate].
    destruct ld; simpl in Hstep; [discriminate|].
    destruct (hasApiKey env); simpl in Hstep; [|discriminate].
    injection Hstep as <-. unfold dispatch. simpl.
    destruct Hinv as [[-> _] | [q [_ [Hld _]]]]; [|discriminate].
    right. exists p. auto.
  - (* Settle *)
    destruct Hinv as [[-> ->] | [p [-> [-> ->]]]].
    + destruct i; discriminate.
    + destruct i as [|i]; simpl in Hstep; [|destruct i; discriminate].
      injection Hstep as <-. unfold dispatch.
      destruct o as [ideas' | [|m]]; simpl; left; auto.
Qed.

Lemma steps_pageInv (env : Env) (evs : list Event) :
  forall pg pg', pageInv pg -> steps env evs pg = Some pg' -> pageInv pg'.
Proof.
  induction evs as [|ev rest IH]; simpl; intros pg pg' Hinv Hrun.
  - injection Hrun as <-. exact Hinv.
  - destruct (step env ev pg) as [pg1|] eqn:Hstep; [|discriminate].
    eapply IH; [eapply step_pageInv; eassumption | exact Hrun].
Qed.

Lemma reachable_pageInv (env : Env) (pg : Page) :
  reachable env pg -> pageInv pg.
Proof.
  intros [evs Hrun]. eapply steps_pageInv; [|exact Hrun].
  left. split; reflexivity.
Qed.

Lemma reachable_step (env : Env) (ev : Event) (pg pg' : Page) :
  reachable env pg -> step env ev pg = Some pg' -> reachable env pg'.
Proof.
  intros [evs Hrun] Hstep. exists (evs ++ [ev]).
  revert Hrun. generalize initialPage.
  induction evs as [|e rest IH]; simpl; intros pg0 Hrun.
  - injection Hrun as ->. rewrite Hstep. reflexivity.
  - destruct (step env e pg0) as [pg1|]; [|discriminate]. apply IH. exact Hrun.
Qed.

(** On a page the user can get to, the only call that can settle is the
    single one in flight, and what runs then is the tail of
    [handleGenerateIdeas] on the state as it is by then. *)
Lemma settle_reachable (env : Env) (pg pg' : Page) (i : nat) (o : Outcome) :
  reachable env pg ->
  step env (Settle i o) pg = Some pg' ->
  i = 0
  /\ isLoadingIdeas (state pg) = true
  /\ storyIdeas (state pg) = []
  /\ inFlight pg' = []
  /\ state pg' = fst (exec (handleGenerateIdeas_resume o) (state pg)).
Proof.
  intros Hr Hstep. apply reachable_pageInv in Hr.
  destruct pg as [s pend]. unfold pageInv in Hr. unfold step in Hstep.
  simpl in *.
  destruct Hr as [[-> Hld] | [p [-> [Hld Hid]]]].
  - destruct i; discriminate.
  - destruct i as [|i]; simpl in Hstep; [|destruct i; discriminate].
    injection Hstep as <-. unfold dispatch.
    destruct o as [ideas | [|m]]; simpl; auto.
Qed.

Lemma loading_iff_inFlight (env : Env) (pg : Page) :
  reachable env pg ->
  isLoadingIdeas (state pg) = true ->
  exists p, inFlight pg = [(p, handleGenerateIdeas_resume)].
Proof.
  intros Hr Hld. apply reachable_pageInv in Hr.
  destruct Hr as [[_ Hf] | [p [Hp _]]]; [congruence | exists p; exact Hp].
Qed.

(** ** Generating ideas, one run of the handler *)

(** C6: a run of [handleGenerateIdeas] calls [generateStoryIdeas] at most
    once, however the service answers, and the code that runs after the
    promise has settled (the [catch] block included) calls it no more. *)
Theorem handleGenerateIdeas_calls_at_most_once
    (env : Env) (svc : Prompt -> Outcome) (s : State) :
  calls svc (handleGenerateIdeas env s) <= 1
  /\ (forall o, calls svc (handleGenerateIdeas_resume o) = 0)
  /\ (forall a, In a (trace svc (handleGenerateIdeas env s)) ->
        is_call a = true ->
        exists p, currentPrompt s = Some p /\ a = Call_generateStoryIdeas p).
Proof.
  split; [|split].
  - unfold handleGenerateIdeas, calls.
    destruct (currentPrompt s) as [p|]; simpl; [|lia].
    destruct (hasApiKey env); simpl; [|lia].
    destruct (svc p) as [ideas | [|m]]; simpl; lia.
  - intros [ideas | [|m]]; reflexivity.
  - unfold handleGenerateIdeas.
    destruct (currentPrompt s) as [p|]; simpl; [|intros a []].
    destruct (hasApiKey env); simpl.
    + intros a Ha Hc. exists p. split; [reflexivity|].
      destruct Ha as [<- | [<- | [<- | [<- | Ha]]]]; try discriminate; try reflexivity.
      destruct (svc p) as [ideas | [|m]]; simpl in Ha;
        repeat (destruct Ha as [<- | Ha]; try discriminate); contradiction.
    + intros a [<- | []] Hc. discriminate.
Qed.

(** C7: [handleGenerateIdeas] never writes the current prompt or the
    selected genre: both cells hold after a run what they held before
    it, on the early returns, on success and on failure, and the resumed
    tail leaves them as it finds them. *)
Theorem handleGenerateIdeas_keeps_prompt_and_genre
    (env : Env) (svc : Prompt -> Outcome) (s : State) :
  currentPrompt (run svc (handleGenerateIdeas env s) s) = currentPrompt s
  /\ selectedGenre (run svc (handleGenerateIdeas env s) s) = selectedGenre s
  /\ (forall o s2,
        currentPrompt (run svc (handleGenerateIdeas_resume o) s2)
        = currentPrompt s2
        /\ selectedGenre (run svc (handleGenerateIdeas_resume o) s2)
           = selectedGenre s2)
  /\ (forall v, ~ In (Setter (setCurrentPrompt v))
                     (trace svc (handleGenerateIdeas env s)))
  /\ (forall v, ~ In (Setter (setSelectedGenre v))
                     (trace svc (handleGenerateIdeas env s))).
Proof.
  assert (Hres : forall o s2,
            currentPrompt (run svc (handleGenerateIdeas_resume o) s2)
            = currentPrompt s2
            /\ selectedGenre (run svc (handleGenerateIdeas_resume o) s2)
               = selectedGenre s2).
  { intros [ideas | [|m]] s2; split; reflexivity. }
  unfold handleGenerateIdeas.
  destruct (currentPrompt s) as [p|] eqn:Hp; simpl.
  - destruct (hasApiKey env); simpl.
    + repeat split.
      * rewrite (proj1 (Hres _ _)). simpl. exact Hp.
      * rewrite (proj2 (Hres _ _)). reflexivity.
      * apply Hres.
      * apply Hres.
      * intros v [H | [H | [H | [H | H]]]]; try discriminate.
        destruct (svc p) as [ideas | [|m]]; simpl in H;
          repeat (destruct H as [H | H]; try discriminate); contradiction.
      * intros v [H | [H | [H | [H | H]]]]; try discriminate.
        destruct (svc p) as [ideas | [|m]]; simpl in H;
          repeat (destruct H as [H | H]; try discriminate); contradiction.
    + repeat split; try apply Hres; try exact Hp;
        intros v [H | []]; discriminate.
  - repeat split; try apply Hres; try exact Hp; intros v [].
Qed.

(** C8: without an API key, [handleGenerateIdeas] on a shown prompt does
    one thing, [setError] with the fixed message: no call to the
    service, and the current prompt, the idea list, the loading flag and
    the selected genre are left alone. *)
Theorem handleGenerateIdeas_without_api_key
    (env : Env) (svc : Prompt -> Outcome) (s : State) (p : Prompt) :
  hasApiKey env = false ->
  currentPrompt s = Some p ->
  let s' := run svc (handleGenerateIdeas env s) s in
  trace svc (handleGenerateIdeas env s)
  = [Setter (setError
       (Some "AI features are disabled. Please configure your API key."))]
  /\ calls svc (handleGenerateIdeas env s) = 0
  /\ exec (handleGenerateIdeas env s) s = (s', None)
  /\ error s'
     = Some "AI features are disabled. Please configure your API key."
  /\ currentPrompt s' = currentPrompt s
  /\ storyIdeas s' = storyIdeas s
  /\ isLoadingIdeas s' = isLoadingIdeas s
  /\ selectedGenre s' = selectedGenre s.
Proof.
  intros Hkey Hp. unfold handleGenerateIdeas, calls.
  rewrite Hp, Hkey. simpl. repeat split. exact Hp.
Qed.

Lemma handleGenerateIdeas_without_api_key_witness :
  let s' := run serviceUp (handleGenerateIdeas sampleEnvNoKey sampleShown)
                sampleShown in
  trace serviceUp (handleGenerateIdeas sampleEnvNoKey sampleShown)
  = [Setter (setError
       (Some "AI features are disabled. Please configure your API key."))]
  /\ calls serviceUp (handleGenerateIdeas sampleEnvNoKey sampleShown) = 0
  /\ exec (handleGenerateIdeas sampleEnvNoKey sampleShown) sampleShown
     = (s', None)
  /\ error s'
     = Some "AI features are disabled. Please configure your API key."
  /\ currentPrompt s' = currentPrompt sampleShown
  /\ storyIdeas s' = ["An older idea."]
  /\ isLoadingIdeas s' = false
  /\ selectedGenre s' = "Sci-Fi".
Proof.
  apply (handleGenerateIdeas_without_api_key
           sampleEnvNoKey serviceUp sampleShown
           {| genre := "Sci-Fi"; text := "The last radio signal answers back." |});
    reflexivity.
Defined.

(** C10: a run of [handleGenerateIdeas] that raises the loading flag
    lowers it again as its last action, whether the call succeeds or
    throws; the same holds when other events are handled while the call
    is in flight, because the resumed tail ends in the [finally] block
    on whatever state it finds. *)
Theorem loading_flag_always_cleared
    (env : Env) (svc : Prompt -> Outcome) (s : State) :
  In (Setter (setIsLoadingIdeas true)) (trace svc (handleGenerateIdeas env s)) ->
  isLoadingIdeas (run svc (handleGenerateIdeas env s) s) = false
  /\ (exists before,
        trace svc (handleGenerateIdeas env s)
        = before ++ [Setter (setIsLoadingIdeas false)])
  /\ (forall o s2,
        isLoadingIdeas (run svc (handleGenerateIdeas_resume o) s2) = false)
  /\ (forall pg i o pg',
        reachable env pg -> step env (Settle i o) pg = Some pg' ->
        isLoadingIdeas (state pg') = false /\ inFlight pg' = []).
Proof.
  intros Hin.
  assert (Hres : forall o s2,
            isLoadingIdeas (run svc (handleGenerateIdeas_resume o) s2) = false).
  { intros [ideas | [|m]] s2; reflexivity. }
  split; [|split; [|split]].
  - unfold handleGenerateIdeas in *.
    destruct (currentPrompt s) as [p|]; simpl in *; [|contradiction].
    destruct (hasApiKey env); simpl in *.
    + apply Hres.
    + destruct Hin as [H | []]. discriminate.
  - unfold handleGenerateIdeas in *.
    destruct (currentPrompt s) as [p|]; simpl in *; [|contradiction].
    destruct (hasApiKey env); simpl in *.
    + destruct (svc p) as [ideas | [|m]]; simpl.
      * exists [Setter (setIsLoadingIdeas true); Setter (setError None);
                Setter (setStoryIdeas []); Call_generateStoryIdeas p;
                Setter (setStoryIdeas ideas)]. reflexivity.
      * exists [Setter (setIsLoadingIdeas true); Setter (setError None);
                Setter (setStoryIdeas []); Call_generateStoryIdeas p].
        reflexivity.
      * exists [Setter (setIsLoadingIdeas true); Setter (setError None);
                Setter (setStoryIdeas []); Call_generateStoryIdeas p;
                Setter (setError
                          (Some (message_or m unknownErrorMessage)))].
        reflexivity.
    + destruct Hin as [H | []]. discriminate.
  - exact Hres.
  - intros pg i o pg' Hr Hstep.
    destruct (settle_reachable env pg pg' i o Hr Hstep)
      as [_ [_ [_ [Hfl Hst]]]].
    split; [|exact Hfl]. rewrite Hst. destruct o as [ideas | [|m]]; reflexivity.
Qed.

Lemma loading_flag_always_cleared_witness :
  isLoadingIdeas (run serviceDown (handleGenerateIdeas sampleEnv sampleShown)
                      sampleShown) = false
  /\ isLoadingIdeas (run serviceUp (handleGenerateIdeas sampleEnv sampleShown)
                         sampleShown) = false.
Proof.
  split.
  - apply (loading_flag_always_cleared sampleEnv serviceDown sampleShown).
    simpl. left. reflexivity.
  - apply (loading_flag_always_cleared sampleEnv serviceUp sampleShown).
    simpl. left. reflexivity.
Defined.

(** When [generateStoryIdeas] throws a value other than [null] and
    [undefined], the handler's whole reaction is one [setError] followed
    by the [finally] block.  The error is the thrown value's message, or
    "An unknown error occurred." when the message is missing or empty
    (both falsy for [||]); the idea list, emptied before the call, stays
    empty, also when other events were handled while the call was in
    flight; nothing is in flight afterwards. *)
Lemma rejection_with_value_surfaces_message
    (env : Env) (svc : Prompt -> Outcome) (s : State) (p : Prompt)
    (msg : option string) :
  currentPrompt s = Some p ->
  hasApiKey env = true ->
  svc p = Rejected (thrownValue msg) ->
  let s' := run svc (handleGenerateIdeas env s) s in
  trace svc (handleGenerateIdeas env s)
  = [Setter (setIsLoadingIdeas true); Setter (setError None);
     Setter (setStoryIdeas []); Call_generateStoryIdeas p;
     Setter (setError (Some (message_or msg "An unknown error occurred.")));
     Setter (setIsLoadingIdeas false)]
  /\ (forall m, msg = Some m -> m <> EmptyString -> error s' = Some m)
  /\ (msg = None \/ msg = Some EmptyString ->
      error s' = Some "An unknown error occurred.")
  /\ storyIdeas s' = []
  /\ (forall pg i pg',
        reachable env pg ->
        step env (Settle i (Rejected (thrownValue msg))) pg = Some pg' ->
        error (state pg')
        = Some (message_or msg "An unknown error occurred.")
        /\ storyIdeas (state pg') = []
        /\ inFlight pg' = []).
Proof.
  intros Hp Hkey Hsvc. unfold handleGenerateIdeas.
  rewrite Hp, Hkey. simpl. rewrite Hsvc. simpl.
  split; [reflexivity|]. split; [|split; [|split]].
  - intros m Hm Hne. rewrite Hm. destruct m; [congruence | reflexivity].
  - intros [Hm | Hm]; rewrite Hm; reflexivity.
  - reflexivity.
  - intros pg i pg' Hr Hstep.
    destruct (settle_reachable env pg pg' i _ Hr Hstep)
      as [_ [_ [Hid [Hfl Hst]]]].
    rewrite Hst. simpl. repeat split; assumption.
Qed.

(** C5: the claim fails on the code when the promise rejects with
    [null] or [undefined].  The [catch] block then throws at [e.message]
    before it reaches [setError]: after the call the run consists of the
    [finally] block alone, the error cell keeps the [null] written
    before the call, no banner is rendered, and the page shows neither
    ideas nor an error, where the claim has the fallback
    "An unknown error occurred.". *)
Theorem nullish_rejection_stores_no_error
    (env : Env) (svc : Prompt -> Outcome) (s : State) (p : Prompt) :
  currentPrompt s = Some p ->
  hasApiKey env = true ->
  svc p = Rejected thrownNullish ->
  let s' := run svc (handleGenerateIdeas env s) s in
  trace svc (handleGenerateIdeas env s)
  = [Setter (setIsLoadingIdeas true); Setter (setError None);
     Setter (setStoryIdeas []); Call_generateStoryIdeas p;
     Setter (setIsLoadingIdeas false)]
  /\ error s' = None
  /\ error s' <> Some "An unknown error occurred."
  /\ errorBanner (render env s') = None
  /\ storyIdeas s' = []
  /\ storyConcepts (render env s') = []
  /\ isLoadingIdeas s' = false.
Proof.
  intros Hp Hkey Hsvc. unfold handleGenerateIdeas.
  rewrite Hp, Hkey. simpl. rewrite Hsvc. simpl.
  repeat split. discriminate.
Qed.

Lemma nullish_rejection_stores_no_error_witness :
  let s' := run serviceRejectsUndefined
                (handleGenerateIdeas sampleEnv sampleShown) sampleShown in
  trace serviceRejectsUndefined (handleGenerateIdeas sampleEnv sampleShown)
  = [Setter (setIsLoadingIdeas true); Setter (setError None);
     Setter (setStoryIdeas []);
     Call_generateStoryIdeas
       {| genre := "Sci-Fi"; text := "The last radio signal answers back." |};
     Setter (setIsLoadingIdeas false)]
  /\ error s' = None
  /\ error s' <> Some "An unknown error occurred."
  /\ errorBanner (render sampleEnv s') = None
  /\ storyIdeas s' = []
  /\ storyConcepts (render sampleEnv s') = []
  /\ isLoadingIdeas s' = false.
Proof.
  apply (nullish_rejection_stores_no_error
           sampleEnv serviceRejectsUndefined sampleShown
           {| genre := "Sci-Fi"; text := "The last radio signal answers back." |});
    reflexivity.
Defined.

(** ** The idea list *)

(** C3: a generation request replaces the idea list and never extends
    it: once past its guards [handleGenerateIdeas] empties the list
    before the call, and on success the list is exactly the returned
    sequence, whatever it held before and on whatever state the tail
    resumes.  The list is emptied with every change of the current
    prompt: [handleGeneratePrompt] sets a prompt and empties it, and on
    the page no event changes the current prompt without leaving the
    list empty. *)
Theorem idea_list_replaced_wholesale (env : Env) (svc : Prompt -> Outcome) :
  (forall s p,
      currentPrompt s = Some p -> hasApiKey env = true ->
      (exists s1, exec (handleGenerateIdeas env s) s
                  = (s1, Some (p, handleGenerateIdeas_resume))
                  /\ storyIdeas s1 = [])
      /\ (forall ideas, svc p = Resolved ideas ->
            storyIdeas (run svc (handleGenerateIdeas env s) s) = ideas))
  /\ (forall ideas s2,
        storyIdeas (run svc (handleGenerateIdeas_resume (Resolved ideas)) s2)
        = ideas)
  /\ (forall r s,
        filteredPrompts env (selectedGenre s) <> [] ->
        exists p,
          currentPrompt (run svc (handleGeneratePrompt env r s) s) = Some p
          /\ storyIdeas (run svc (handleGeneratePrompt env r s) s) = [])
  /\ (forall pg ev pg',
        reachable env pg -> step env ev pg = Some pg' ->
        currentPrompt (state pg') <> currentPrompt (state pg) ->
        storyIdeas (state pg') = []).
Proof.
  split; [|split; [|split]].
  - intros s p Hp Hkey. unfold handleGenerateIdeas. rewrite Hp, Hkey. simpl.
    split.
    + eexists. split; reflexivity.
    + intros ideas Hsvc. rewrite Hsvc. reflexivity.
  - reflexivity.
  - intros r s Hne. unfold handleGeneratePrompt.
    destruct (List.length (filteredPrompts env (selectedGenre s)) =? 0)%nat
      eqn:Hlen.
    + apply length_zero_nil in Hlen. contradiction.
    + destruct (randomIndex_in_range _ r Hne) as [p [Hnth _]].
      exists p. simpl. split; [exact Hnth | reflexivity].
  - intros pg ev pg' Hr Hstep Hchg. destruct ev.
    + unfold step in Hstep.
      destruct (negb _ && _); [|discriminate]. injection Hstep as <-.
      reflexivity.
    + unfold step in Hstep.
      destruct (negb _); [|discriminate]. injection Hstep as <-.
      unfold dispatch in *.
      destruct (exec_handleGeneratePrompt env r (state pg))
        as [s' [He [_ [_ [Hsame | Hnil]]]]].
      * rewrite He in Hchg. simpl in Hchg. contradiction.
      * rewrite He. exact Hnil.
    + unfold step in Hstep.
      destruct (promptShown _); [|discriminate]. injection Hstep as <-.
      reflexivity.
    + unfold step, promptShown, sparkDisabled, handleGenerateIdeas in Hstep.
      destruct (currentPrompt (state pg)) as [p|]; simpl in Hstep;
        [|discriminate].
      destruct (isLoadingIdeas (state pg)); simpl in Hstep; [discriminate|].
      destruct (hasApiKey env); simpl in Hstep; [|discriminate].
      injection Hstep as <-. reflexivity.
    + destruct (settle_reachable env pg pg' i o Hr Hstep)
        as [_ [_ [_ [_ Hst]]]].
      rewrite Hst in Hchg. destruct o as [ideas | [|m]]; simpl in Hchg;
        contradiction.
Qed.

Lemma idea_list_replaced_wholesale_witness :
  storyIdeas (run serviceUp (handleGenerateIdeas sampleEnv sampleShown)
                  sampleShown) = sampleIdeas
  /\ storyIdeas (run serviceUp (handleGeneratePrompt sampleEnv lateDraw sampleShown)
                     sampleShown) = [].
Proof.
  pose proof (idea_list_replaced_wholesale sampleEnv serviceUp)
    as [Hgen [_ [Hprompt _]]].
  split.
  - apply (proj2 (Hgen sampleShown
                    {| genre := "Sci-Fi";
                       text := "The last radio signal answers back." |}
                    eq_refl eq_refl)).
    reflexivity.
  - destruct (Hprompt lateDraw sampleShown) as [p [_ Hnil]];
      [discriminate | exact Hnil].
Defined.

(** ** Ideas without a prompt *)

(** Run to completion, with nothing handled in between, every handler
    keeps the idea list empty unless a prompt is selected. *)
Lemma ideasNeedPrompt_atomic
    (env : Env) (svc : Prompt -> Outcome) (r : Random) (value : string)
    (s : State) :
  ideasNeedPrompt s = true ->
  ideasNeedPrompt (run svc (handleGeneratePrompt env r s) s) = true
  /\ ideasNeedPrompt (run svc (handleGenerateIdeas env s) s) = true
  /\ ideasNeedPrompt (run svc (onGenreChange value) s) = true
  /\ ideasNeedPrompt (run svc onChangeGenreClick s) = true.
Proof.
  intros Hinv. repeat split.
  - unfold handleGeneratePrompt.
    destruct (List.length (filteredPrompts env (selectedGenre s)) =? 0)%nat;
      simpl; [exact Hinv | reflexivity].
  - unfold handleGenerateIdeas.
    destruct (currentPrompt s) as [p|] eqn:Hp; simpl; [|exact Hinv].
    destruct (hasApiKey env); simpl.
    + destruct (svc p) as [ideas | [|m]]; simpl; [|reflexivity|reflexivity].
      unfold ideasNeedPrompt, promptShown. simpl. rewrite Hp.
      destruct ideas; reflexivity.
    + exact Hinv.
Qed.

(** C1: the claim fails on the page.  Change Genre stays enabled while a
    call is in flight, and the resumed tail of [handleGenerateIdeas]
    stores the result without looking at the current prompt: after
    Generate a Prompt, Spark Creativity, Change Genre and a successful
    answer, no prompt is selected and the idea list holds the answer. *)
Theorem ideas_outlive_their_prompt (env : Env) (ideas : list string) :
  hasApiKey env = true ->
  PROMPTS env <> [] ->
  ideas <> [] ->
  exists pg,
    steps env
      [ClickGeneratePrompt firstDraw; ClickSparkCreativity; ClickChangeGenre;
       Settle 0 (Resolved ideas)]
      initialPage = Some pg
    /\ reachable env pg
    /\ currentPrompt (state pg) = None
    /\ storyIdeas (state pg) = ideas
    /\ ideasNeedPrompt (state pg) = false.
Proof.
  intros Hkey Hne Hideas.
  destruct env as [prompts genres key]. simpl in *. subst key.
  destruct prompts as [|p rest]; [congruence|].
  destruct ideas as [|idea more]; [congruence|].
  eexists. split; [reflexivity|]. split; [|repeat split].
  exists [ClickGeneratePrompt firstDraw; ClickSparkCreativity; ClickChangeGenre;
          Settle 0 (Resolved (idea :: more))].
  reflexivity.
Qed.

Lemma ideas_outlive_their_prompt_witness :
  exists pg,
    steps sampleEnv
      [ClickGeneratePrompt firstDraw; ClickSparkCreativity; ClickChangeGenre;
       Settle 0 (Resolved sampleIdeas)]
      initialPage = Some pg
    /\ reachable sampleEnv pg
    /\ currentPrompt (state pg) = None
    /\ storyIdeas (state pg) = sampleIdeas
    /\ ideasNeedPrompt (state pg) = false.
Proof.
  apply (ideas_outlive_their_prompt sampleEnv sampleIdeas);
    [reflexivity | discriminate | discriminate].
Defined.

(** * Further properties of the page *)

(** ** Reasoning along event sequences *)

Lemma steps_app (env : Env) (a b : list Event) (pg : Page) :
  steps env (a ++ b) pg
  = match steps env a pg with
    | Some pg1 => steps env b pg1
    | None => None
    end.
Proof.
  revert pg. induction a as [|ev rest IH]; intros pg; simpl; [reflexivity|].
  destruct (step env ev pg) as [pg1|]; [apply IH | reflexivity].
Qed.

(** Induction over the pages the user can get to. *)
Lemma reachable_invariant (env : Env) (P : Page -> Prop) :
  P initialPage ->
  (forall pg ev pg',
      reachable env pg -> P pg -> step env ev pg = Some pg' -> P pg') ->
  forall pg, reachable env pg -> P pg.
Proof.
  intros Hinit Hstep pg [evs Hrun]. revert pg Hrun.
  induction evs as [|ev evs IH] using rev_ind; intros pg Hrun.
  - injection Hrun as <-. exact Hinit.
  - rewrite steps_app in Hrun.
    destruct (steps env evs initialPage) as [pg1|] eqn:Hpre; [|discriminate].
    simpl in Hrun.
    destruct (step env ev pg1) as [pg2|] eqn:Hev; [|discriminate].
    injection Hrun as <-.
    apply (Hstep pg1 ev pg2); [exists evs; exact Hpre | apply IH; reflexivity
                              | exact Hev].
Qed.

Lemma genre_option_In (value : string) (options : list string) :
  existsb (String.eqb value) options = true -> In value options.
Proof.
  intros H. apply existsb_exists in H. destruct H as [x [Hin Heq]].
  apply String.eqb_eq in Heq. subst x. exact Hin.
Qed.

(** The two ways [handleGeneratePrompt] ends. *)
Lemma handleGeneratePrompt_cases (env : Env) (r : Random) (s : State) :
  (filteredPrompts env (selectedGenre s) = []
   /\ fst (exec (handleGeneratePrompt env r s) s)
      = {| currentPrompt := currentPrompt s; storyIdeas := storyIdeas s;
           isLoadingIdeas := isLoadingIdeas s;
           error := Some (noPromptsMessage (selectedGenre s));
           selectedGenre := selectedGenre s |})
  \/ (exists p,
        nth_error (filteredPrompts env (selectedGenre s))
          (Math_floor_random_times r
             (List.length (filteredPrompts env (selectedGenre s)))) = Some p
        /\ In p (filteredPrompts env (selectedGenre s))
        /\ fst (exec (handleGeneratePrompt env r s) s)
           = {| currentPrompt := Some p; storyIdeas := [];
                isLoadingIdeas := isLoadingIdeas s; error := None;
                selectedGenre := selectedGenre s |}).
Proof.
  unfold handleGeneratePrompt.
  destruct (List.length (filteredPrompts env (selectedGenre s)) =? 0)%nat
    eqn:Hlen.
  - left. apply length_zero_nil in Hlen. split; [exact Hlen | reflexivity].
  - right.
    assert (Hne : filteredPrompts env (selectedGenre s) <> []).
    { intros Hnil. rewrite Hnil in Hlen. discriminate. }
    destruct (randomIndex_in_range _ r Hne) as [p [Hnth Hin]].
    exists p. split; [exact Hnth|]. split; [exact Hin|].
    simpl. rewrite Hnth. reflexivity.
Qed.

(** What each event does to a page the user can get to. *)
Lemma step_cases (env : Env) (ev : Event) (pg pg' : Page) :
  reachable env pg ->
  step env ev pg = Some pg' ->
  let s := state pg in
  match ev with
  | SelectGenre value =>
      currentPrompt s = None /\ In value (GENRES env)
      /\ inFlight pg' = inFlight pg
      /\ state pg'
         = {| currentPrompt := None; storyIdeas := [];
              isLoadingIdeas := isLoadingIdeas s; error := None;
              selectedGenre := value |}
  | ClickGeneratePrompt r =>
      currentPrompt s = None
      /\ inFlight pg' = inFlight pg
      /\ state pg' = fst (exec (handleGeneratePrompt env r s) s)
  | ClickChangeGenre =>
      (exists p, currentPrompt s = Some p)
      /\ inFlight pg' = inFlight pg
      /\ state pg'
         = {| currentPrompt := None; storyIdeas := [];
              isLoadingIdeas := isLoadingIdeas s; error := error s;
              selectedGenre := selectedGenre s |}
  | ClickSparkCreativity =>
      exists p,
        currentPrompt s = Some p /\ isLoadingIdeas s = false
        /\ hasApiKey env = true /\ inFlight pg = []
        /\ inFlight pg' = [(p, handleGenerateIdeas_resume)]
        /\ state pg'
           = {| currentPrompt := Some p; storyIdeas := [];
                isLoadingIdeas := true; error := None;
                selectedGenre := selectedGenre s |}
  | Settle i o =>
      i = 0 /\ isLoadingIdeas s = true /\ storyIdeas s = []
      /\ (exists p, inFlight pg = [(p, handleGenerateIdeas_resume)])
      /\ inFlight pg' = []
      /\ state pg'
         = match o with
           | Resolved ideas =>
               {| currentPrompt := currentPrompt s; storyIdeas := ideas;
                  isLoadingIdeas := false; error := error s;
                  selectedGenre := selectedGenre s |}
           | Rejected e =>
               {| currentPrompt := currentPrompt s; storyIdeas := [];
                  isLoadingIdeas := false;
                  error := match e with
                           | thrownNullish => error s
                           | thrownValue m =>
                               Some (message_or m unknownErrorMessage)
                           end;
                  selectedGenre := selectedGenre s |}
           end
  end.
Proof.
  intros Hr Hstep. pose proof (reachable_pageInv env pg Hr) as Hinv.
  destruct ev; cbv zeta.
  - unfold step in Hstep.
    destruct (negb (promptShown (state pg))) eqn:Hshown; [|discriminate].
    destruct (existsb _ _) eqn:Hopt; [|discriminate].
    simpl in Hstep. injection Hstep as <-.
    unfold promptShown in Hshown.
    destruct (currentPrompt (state pg)); [discriminate|].
    repeat split. apply genre_option_In. exact Hopt.
  - unfold step in Hstep.
    destruct (negb (promptShown (state pg))) eqn:Hshown; [|discriminate].
    injection Hstep as <-.
    unfold promptShown in Hshown.
    destruct (currentPrompt (state pg)) eqn:Hp; [discriminate|].
    unfold dispatch.
    destruct (exec_handleGeneratePrompt env r (state pg)) as [s' [He _]].
    rewrite He. repeat split.
  - unfold step in Hstep.
    destruct (promptShown (state pg)) eqn:Hshown; [|discriminate].
    injection Hstep as <-.
    unfold promptShown in Hshown.
    destruct (currentPrompt (state pg)) as [p|]; [|discriminate].
    repeat split. exists p. reflexivity.
  - unfold step, promptShown, sparkDisabled, handleGenerateIdeas in Hstep.
    destruct (currentPrompt (state pg)) as [p|] eqn:Hp; simpl in Hstep;
      [|discriminate].
    destruct (isLoadingIdeas (state pg)) eqn:Hld; simpl in Hstep;
      [discriminate|].
    destruct (hasApiKey env) eqn:Hkey; simpl in Hstep; [|discriminate].
    injection Hstep as <-. unfold dispatch. simpl.
    destruct Hinv as [[Hfl _] | [q [_ [Hld' _]]]]; [|congruence].
    exists p. rewrite Hfl. repeat split. rewrite Hp. reflexivity.
  - destruct (settle_reachable env pg pg' i o Hr Hstep)
      as [Hi [Hld [Hid [Hfl Hst]]]].
    destruct (loading_iff_inFlight env pg Hr Hld) as [p Hp].
    repeat split; try assumption.
    + exists p. exact Hp.
    + rewrite Hst. destruct o as [ideas | [|m]]; simpl;
        [reflexivity | rewrite Hid; reflexivity | rewrite Hid; reflexivity].
Qed.

(** ** Invariants of the page *)

Lemma reachable_promptFitsGenre (env : Env) (pg : Page) :
  reachable env pg -> promptFitsGenre env (state pg).
Proof.
  revert pg. apply (reachable_invariant env
    (fun pg => promptFitsGenre env (state pg))).
  - intros p Hp. discriminate.
  - intros pg0 ev pg' Hr IH Hstep.
    pose proof (step_cases env ev pg0 pg' Hr Hstep) as Hc.
    unfold promptFitsGenre in *. destruct ev; cbv beta iota zeta in Hc.
    + destruct Hc as [_ [_ [_ ->]]]. intros p Hp. discriminate.
    + destruct Hc as [_ [_ ->]].
      destruct (handleGeneratePrompt_cases env r (state pg0))
        as [[_ ->] | [q [_ [Hin ->]]]]; simpl.
      * exact IH.
      * intros p Hp. injection Hp as <-.
        apply filteredPrompts_sound. exact Hin.
    + destruct Hc as [_ [_ ->]]. intros p Hp. discriminate.
    + destruct Hc as [q [Hq [_ [_ [_ [_ ->]]]]]]. simpl.
      intros p Hp. injection Hp as <-. apply IH. exact Hq.
    + destruct Hc as [_ [_ [_ [_ [_ ->]]]]].
      destruct o; simpl; exact IH.
Qed.

Lemma reachable_inFlight_key (env : Env) (pg : Page) :
  reachable env pg -> inFlight pg <> [] -> hasApiKey env = true.
Proof.
  intros Hr. revert pg Hr. apply (reachable_invariant env
    (fun pg => inFlight pg <> [] -> hasApiKey env = true)).
  - intros H. contradiction H. reflexivity.
  - intros pg0 ev pg' Hr IH Hstep.
    pose proof (step_cases env ev pg0 pg' Hr Hstep) as Hc.
    destruct ev; cbv beta iota zeta in Hc.
    + destruct Hc as [_ [_ [-> _]]]. exact IH.
    + destruct Hc as [_ [-> _]]. exact IH.
    + destruct Hc as [_ [-> _]]. exact IH.
    + destruct Hc as [q [_ [_ [Hkey _]]]]. intros _. exact Hkey.
    + destruct Hc as [_ [_ [_ [_ [-> _]]]]]. intros H. contradiction H.
      reflexivity.
Qed.

(** X1: on every page the user can get to, at most one call to
    [generateStoryIdeas] is in flight, and one is in flight exactly
    while the loading flag is up. *)
Theorem one_call_in_flight (env : Env) (pg : Page) :
  reachable env pg ->
  List.length (inFlight pg) <= 1
  /\ (isLoadingIdeas (state pg) = true <-> inFlight pg <> []).
Proof.
  intros Hr. destruct (reachable_pageInv env pg Hr)
    as [[Hfl Hld] | [p [Hfl [Hld _]]]]; rewrite Hfl, Hld; simpl.
  - split; [lia|]. split; [discriminate | intros H; contradiction H; reflexivity].
  - split; [lia|]. split; [discriminate | reflexivity].
Qed.

Lemma one_call_in_flight_witness :
  List.length (inFlight sampleLoading) <= 1
  /\ (isLoadingIdeas (state sampleLoading) = true
      <-> inFlight sampleLoading <> []).
Proof.
  apply (one_call_in_flight sampleEnv sampleLoading).
  exists [ClickGeneratePrompt firstDraw; ClickSparkCreativity]. reflexivity.
Defined.

(** X2: the service is only ever called for a prompt of [PROMPTS] that
    was on the page when Spark Creativity was clicked, and only with an
    API key configured; what waits for the answer is the tail of
    [handleGenerateIdeas]. *)
Theorem calls_are_for_listed_prompts
    (env : Env) (pg : Page) (p : Prompt) (k : Outcome -> Prog) :
  reachable env pg ->
  In (p, k) (inFlight pg) ->
  In p (PROMPTS env)
  /\ hasApiKey env = true
  /\ k = handleGenerateIdeas_resume.
Proof.
  intros Hr. revert pg Hr p k. apply (reachable_invariant env
    (fun pg => forall p k, In (p, k) (inFlight pg) ->
                 In p (PROMPTS env) /\ hasApiKey env = true
                 /\ k = handleGenerateIdeas_resume)).
  - intros p k [].
  - intros pg0 ev pg' Hr IH Hstep.
    pose proof (step_cases env ev pg0 pg' Hr Hstep) as Hc.
    destruct ev; cbv beta iota zeta in Hc.
    + destruct Hc as [_ [_ [-> _]]]. exact IH.
    + destruct Hc as [_ [-> _]]. exact IH.
    + destruct Hc as [_ [-> _]]. exact IH.
    + destruct Hc as [q [Hq [_ [Hkey [_ [-> _]]]]]].
      intros p k [Hpk | []]. injection Hpk as <- <-.
      split; [|split; [exact Hkey | reflexivity]].
      apply (reachable_promptFitsGenre env pg0 Hr q Hq).
    + destruct Hc as [_ [_ [_ [_ [-> _]]]]]. intros p k [].
Qed.

Lemma calls_are_for_listed_prompts_witness :
  In {| genre := "Fantasy"; text := "A dragon opens a bakery." |}
     (PROMPTS sampleEnv)
  /\ hasApiKey sampleEnv = true
  /\ handleGenerateIdeas_resume = handleGenerateIdeas_resume.
Proof.
  apply (calls_are_for_listed_prompts sampleEnv sampleLoading).
  - exists [ClickGeneratePrompt firstDraw; ClickSparkCreativity]. reflexivity.
  - left. reflexivity.
Defined.

(** X3: the prompt on the page always comes from [PROMPTS], and it
    belongs to the selected genre unless that is ['All']: the genre can
    only be changed while no prompt is shown. *)
Theorem shown_prompt_fits_selected_genre (env : Env) (pg : Page) (p : Prompt) :
  reachable env pg ->
  currentPrompt (state pg) = Some p ->
  In p (PROMPTS env)
  /\ (selectedGenre (state pg) <> "All" -> genre p = selectedGenre (state pg)).
Proof.
  intros Hr Hp. exact (reachable_promptFitsGenre env pg Hr p Hp).
Qed.

Lemma shown_prompt_fits_selected_genre_witness :
  In {| genre := "Fantasy"; text := "A dragon opens a bakery." |}
     (PROMPTS sampleEnv)
  /\ (selectedGenre (state sampleLoading) <> "All" ->
      "Fantasy" = selectedGenre (state sampleLoading)).
Proof.
  apply (shown_prompt_fits_selected_genre sampleEnv sampleLoading
           {| genre := "Fantasy"; text := "A dragon opens a bakery." |}).
  - exists [ClickGeneratePrompt firstDraw; ClickSparkCreativity]. reflexivity.
  - reflexivity.
Defined.

(** X4: the selected genre is always ['All'], the initial value, or one
    of the options of the [<select>], that is an element of [GENRES]. *)
Theorem selected_genre_is_an_option (env : Env) (pg : Page) :
  reachable env pg ->
  selectedGenre (state pg) = "All" \/ In (selectedGenre (state pg)) (GENRES env).
Proof.
  revert pg. apply (reachable_invariant env
    (fun pg => selectedGenre (state pg) = "All"
               \/ In (selectedGenre (state pg)) (GENRES env))).
  - left. reflexivity.
  - intros pg0 ev pg' Hr IH Hstep.
    pose proof (step_cases env ev pg0 pg' Hr Hstep) as Hc.
    destruct ev; cbv beta iota zeta in Hc.
    + destruct Hc as [_ [Hin [_ ->]]]. right. exact Hin.
    + destruct Hc as [_ [_ ->]].
      destruct (handleGeneratePrompt_cases env r (state pg0))
        as [[_ ->] | [q [_ [_ ->]]]]; exact IH.
    + destruct Hc as [_ [_ ->]]. exact IH.
    + destruct Hc as [q [_ [_ [_ [_ [_ ->]]]]]]. exact IH.
    + destruct Hc as [_ [_ [_ [_ [_ ->]]]]]. destruct o; exact IH.
Qed.

Lemma selected_genre_is_an_option_witness :
  exists pg,
    steps sampleEnv [SelectGenre "Mystery"; ClickGeneratePrompt firstDraw]
      initialPage = Some pg
    /\ (selectedGenre (state pg) = "All"
        \/ In (selectedGenre (state pg)) (GENRES sampleEnv)).
Proof.
  eexists. split; [reflexivity|].
  apply (selected_genre_is_an_option sampleEnv).
  exists [SelectGenre "Mystery"; ClickGeneratePrompt firstDraw]. reflexivity.
Defined.

(** X5: with no API key configured the page never reaches the AI
    service: on every page the user can get to nothing is in flight or
    loading, the idea list is empty, Spark Creativity cannot be used,
    and the only error there can be is the one of [handleGeneratePrompt]
    for the selected genre, so the message of line 40 never shows. *)
Theorem without_api_key_no_ai (env : Env) (pg : Page) :
  hasApiKey env = false ->
  reachable env pg ->
  inFlight pg = []
  /\ isLoadingIdeas (state pg) = false
  /\ storyIdeas (state pg) = []
  /\ (error (state pg) = None
      \/ error (state pg) = Some (noPromptsMessage (selectedGenre (state pg))))
  /\ error (state pg)
     <> Some "AI features are disabled. Please configure your API key."
  /\ step env ClickSparkCreativity pg = None.
Proof.
  intros Hkey Hr.
  assert (Hinv : inFlight pg = []
                 /\ isLoadingIdeas (state pg) = false
                 /\ storyIdeas (state pg) = []
                 /\ (error (state pg) = None
                     \/ error (state pg)
                        = Some (noPromptsMessage (selectedGenre (state pg))))).
  { revert pg Hr. apply (reachable_invariant env
      (fun pg => inFlight pg = []
                 /\ isLoadingIdeas (state pg) = false
                 /\ storyIdeas (state pg) = []
                 /\ (error (state pg) = None
                     \/ error (state pg)
                        = Some (noPromptsMessage (selectedGenre (state pg)))))).
    - repeat split. left. reflexivity.
    - intros pg0 ev pg' Hr [Hfl [Hld [Hid Herr]]] Hstep.
      pose proof (step_cases env ev pg0 pg' Hr Hstep) as Hc.
      destruct ev; cbv beta iota zeta in Hc.
      + destruct Hc as [_ [_ [-> ->]]]. simpl. auto.
      + destruct Hc as [_ [-> ->]].
        destruct (handleGeneratePrompt_cases env r (state pg0))
          as [[_ ->] | [q [_ [_ ->]]]]; simpl; auto.
      + destruct Hc as [_ [-> ->]]. simpl. auto.
      + destruct Hc as [q [_ [_ [Hk _]]]]. congruence.
      + destruct Hc as [_ [Hl _]]. congruence. }
  destruct Hinv as [Hfl [Hld [Hid Herr]]].
  repeat split; try assumption.
  - destruct Herr as [-> | ->]; [discriminate|].
    unfold noPromptsMessage. simpl. discriminate.
  - unfold step, sparkDisabled. rewrite Hkey. simpl.
    rewrite orb_true_r. simpl. rewrite andb_false_r. reflexivity.
Qed.

Lemma without_api_key_no_ai_witness :
  exists pg,
    steps sampleEnvNoKey
      [SelectGenre "Mystery"; ClickGeneratePrompt firstDraw;
       SelectGenre "Sci-Fi"; ClickGeneratePrompt lateDraw]
      initialPage = Some pg
    /\ currentPrompt (state pg) = nth_error samplePrompts 1
    /\ storyIdeas (state pg) = []
    /\ step sampleEnvNoKey ClickSparkCreativity pg = None.
Proof.
  eexists. split; [reflexivity|]. split; [reflexivity|].
  split;
    apply (without_api_key_no_ai sampleEnvNoKey);
    try reflexivity;
    exists [SelectGenre "Mystery"; ClickGeneratePrompt firstDraw;
            SelectGenre "Sci-Fi"; ClickGeneratePrompt lateDraw];
    reflexivity.
Defined.

(** X6: no handler ever stores an empty error message, so the test
    [error &&] of the JSX hides nothing: whenever the error cell is set,
    the banner is on the page with exactly that text, and it carries the
    API-key line exactly when no key is configured. *)
Theorem every_error_is_displayed (env : Env) (pg : Page) (m : string) :
  reachable env pg ->
  error (state pg) = Some m ->
  m <> EmptyString
  /\ errorBanner (render env (state pg))
     = Some {| bannerText := m; apiKeyHint := negb (hasApiKey env) |}.
Proof.
  intros Hr Hm.
  assert (Hne : m <> EmptyString).
  { revert pg Hr m Hm. apply (reachable_invariant env
      (fun pg => forall m, error (state pg) = Some m -> m <> EmptyString)).
    - intros m Hm. discriminate.
    - intros pg0 ev pg' Hr IH Hstep.
      pose proof (step_cases env ev pg0 pg' Hr Hstep) as Hc.
      destruct ev; cbv beta iota zeta in Hc.
      + destruct Hc as [_ [_ [_ ->]]]. intros m Hm. discriminate.
      + destruct Hc as [_ [_ ->]].
        destruct (handleGeneratePrompt_cases env r (state pg0))
          as [[_ ->] | [q [_ [_ ->]]]]; simpl; intros m Hm.
        * injection Hm as <-. unfold noPromptsMessage. simpl. discriminate.
        * discriminate.
      + destruct Hc as [_ [_ ->]]. exact IH.
      + destruct Hc as [q [_ [_ [_ [_ [_ ->]]]]]]. intros m Hm. discriminate.
      + destruct Hc as [_ [_ [_ [_ [_ ->]]]]].
        destruct o as [ideas | [|msg]]; simpl; [exact IH | exact IH |].
        intros m Hm. injection Hm as <-.
        destruct msg as [[|c rest]|]; discriminate. }
  split; [exact Hne|].
  unfold render, renderError. simpl. rewrite Hm.
  destruct m; [congruence | reflexivity].
Qed.

Lemma every_error_is_displayed_witness :
  exists pg,
    steps sampleEnv [SelectGenre "Mystery"; ClickGeneratePrompt firstDraw]
      initialPage = Some pg
    /\ noPromptsMessage "Mystery" <> EmptyString
    /\ errorBanner (render sampleEnv (state pg))
       = Some {| bannerText := noPromptsMessage "Mystery";
                 apiKeyHint := false |}.
Proof.
  eexists. split; [reflexivity|].
  apply (every_error_is_displayed sampleEnv).
  - exists [SelectGenre "Mystery"; ClickGeneratePrompt firstDraw]. reflexivity.
  - reflexivity.
Defined.

(** X7: while the spinner is on the page no idea card is: the list was
    emptied when the request started and nothing fills it before the
    call settles.  If a prompt is shown at that time, its Spark
    Creativity button is disabled and reads "Generating Ideas...". *)
Theorem spinner_hides_ideas (env : Env) (pg : Page) :
  reachable env pg ->
  spinner (render env (state pg)) = true ->
  storyConcepts (render env (state pg)) = []
  /\ (forall p, currentPrompt (state pg) = Some p ->
        panel (render env (state pg))
        = PromptPanel p true "Generating Ideas...").
Proof.
  intros Hr Hspin. simpl in Hspin.
  destruct (reachable_pageInv env pg Hr)
    as [[_ Hld] | [q [_ [_ Hid]]]]; [congruence|].
  split.
  - unfold render, renderIdeas. simpl. rewrite Hid. reflexivity.
  - intros p Hp. unfold render. simpl. rewrite Hp, Hspin. reflexivity.
Qed.

Lemma spinner_hides_ideas_witness :
  storyConcepts (render sampleEnv (state sampleLoading)) = []
  /\ (forall p, currentPrompt (state sampleLoading) = Some p ->
        panel (render sampleEnv (state sampleLoading))
        = PromptPanel p true "Generating Ideas...").
Proof.
  apply (spinner_hides_ideas sampleEnv sampleLoading).
  - exists [ClickGeneratePrompt firstDraw; ClickSparkCreativity]. reflexivity.
  - reflexivity.
Defined.

Lemma mapWithIndex_cards (l : list string) (from : nat) :
  let cards :=
    mapWithIndex
      (fun idea index =>
         {| cardKey := index; cardIdea := idea; cardIndex := index |})
      from l in
  map cardIdea cards = l
  /\ map cardKey cards = seq from (List.length l)
  /\ map cardIndex cards = seq from (List.length l).
Proof.
  revert from. induction l as [|x rest IH]; intros from; simpl.
  - repeat split.
  - destruct (IH (S from)) as [H1 [H2 H3]].
    rewrite H1, H2, H3. repeat split.
Qed.

Lemma renderIdeas_shows_list (ideas : list string) :
  forall cp ld err g,
    map cardIdea
      (renderIdeas {| currentPrompt := cp; storyIdeas := ideas;
                      isLoadingIdeas := ld; error := err;
                      selectedGenre := g |}) = ideas.
Proof.
  intros cp ld err g. unfold renderIdeas. simpl.
  destruct ideas as [|x rest]; [reflexivity|].
  change (0 <? List.length (x :: rest))%nat with true. cbv iota.
  destruct (mapWithIndex_cards (x :: rest) 0) as [H _]. exact H.
Qed.

(** X8: the Story Concepts block shows one card per idea, in the order
    of the list, each with its position as index and as React key, so
    the keys are 0, 1, ... without repetition; an empty list gives no
    card. *)
Theorem idea_cards_follow_the_list (env : Env) (s : State) :
  let cards := storyConcepts (render env s) in
  map cardIdea cards = storyIdeas s
  /\ map cardKey cards = seq 0 (List.length (storyIdeas s))
  /\ map cardIndex cards = map cardKey cards
  /\ NoDup (map cardKey cards).
Proof.
  unfold render, renderIdeas. simpl.
  destruct (storyIdeas s) as [|x rest] eqn:Hl.
  - simpl. repeat split. constructor.
  - change (0 <? List.length (x :: rest))%nat with true. cbv iota.
    destruct (mapWithIndex_cards (x :: rest) 0) as [H1 [H2 H3]].
    cbv zeta in H1, H2, H3.
    rewrite H1, H2, H3. repeat split. apply seq_NoDup.
Qed.

(** ** More on prompt selection *)

Lemma draw_for_index (n i : nat) :
  i < n -> exists r, Math_floor_random_times r n = i.
Proof.
  intros Hlt.
  assert (Hb : (i <? n)%nat = true) by (apply Nat.ltb_lt; exact Hlt).
  exists {| num := i; den := n; below_one := Hb |}.
  unfold Math_floor_random_times. simpl.
  apply Nat.div_mul. lia.
Qed.

(** X9: every prompt that passes the genre filter can be drawn: for
    each of them some value of [Math.random()] makes
    [handleGeneratePrompt] select it, with the idea list emptied and no
    error. *)
Theorem every_matching_prompt_can_be_drawn
    (env : Env) (svc : Prompt -> Outcome) (s : State) (p : Prompt) :
  In p (filteredPrompts env (selectedGenre s)) ->
  exists r,
    let s' := run svc (handleGeneratePrompt env r s) s in
    currentPrompt s' = Some p /\ storyIdeas s' = [] /\ error s' = None.
Proof.
  intros Hin. destruct (In_nth_error _ _ Hin) as [i Hi].
  assert (Hlt : i < List.length (filteredPrompts env (selectedGenre s))).
  { apply nth_error_Some. congruence. }
  destruct (draw_for_index _ i Hlt) as [r Hr].
  exists r. unfold handleGeneratePrompt.
  destruct (List.length (filteredPrompts env (selectedGenre s)) =? 0)%nat
    eqn:Hlen.
  - apply Nat.eqb_eq in Hlen. lia.
  - simpl. rewrite Hr, Hi. repeat split.
Qed.

Lemma every_matching_prompt_can_be_drawn_witness :
  exists r,
    let s' := run serviceUp (handleGeneratePrompt sampleEnv r sampleIdle)
                  sampleIdle in
    currentPrompt s' = nth_error samplePrompts 2
    /\ storyIdeas s' = [] /\ error s' = None.
Proof.
  apply (every_matching_prompt_can_be_drawn sampleEnv serviceUp sampleIdle
           {| genre := "Fantasy"; text := "A map that redraws itself." |}).
  simpl. right. left. reflexivity.
Defined.

(** X10: when exactly one prompt passes the genre filter,
    [handleGeneratePrompt] selects it whatever [Math.random()]
    returns. *)
Theorem single_match_always_chosen
    (env : Env) (svc : Prompt -> Outcome) (r : Random) (s : State) (p : Prompt) :
  filteredPrompts env (selectedGenre s) = [p] ->
  currentPrompt (run svc (handleGeneratePrompt env r s) s) = Some p.
Proof.
  intros Hone. unfold handleGeneratePrompt. rewrite Hone. simpl.
  pose proof (Math_floor_random_times_lt r 1 Nat.lt_0_1) as Hlt.
  destruct (Math_floor_random_times r 1); [reflexivity | lia].
Qed.

Lemma single_match_always_chosen_witness :
  currentPrompt (run serviceUp (handleGeneratePrompt sampleEnv lateDraw sampleShown)
                     sampleShown)
  = Some {| genre := "Sci-Fi"; text := "The last radio signal answers back." |}.
Proof.
  apply (single_match_always_chosen sampleEnv serviceUp lateDraw sampleShown).
  reflexivity.
Defined.

Lemma filteredPrompts_complete (env : Env) (g : string) (p : Prompt) :
  In p (PROMPTS env) -> g = "All" \/ genre p = g ->
  In p (filteredPrompts env g).
Proof.
  intros Hin Hm. unfold filteredPrompts.
  destruct (g =? "All") eqn:Hall; [exact Hin|].
  apply String.eqb_neq in Hall.
  destruct Hm as [Hm | Hm]; [contradiction|].
  apply filter_In. split; [exact Hin | apply String.eqb_eq; exact Hm].
Qed.

(** X11: [handleGeneratePrompt] ends without an error exactly when some
    prompt of [PROMPTS] matches the selection, ['All'] matching every
    prompt; so with ['All'] selected it fails only on an empty
    [PROMPTS]. *)
Theorem generate_prompt_fails_only_without_match
    (env : Env) (svc : Prompt -> Outcome) (r : Random) (s : State) :
  error (run svc (handleGeneratePrompt env r s) s) = None
  <-> exists p, In p (PROMPTS env)
                /\ (selectedGenre s = "All" \/ genre p = selectedGenre s).
Proof.
  unfold handleGeneratePrompt.
  destruct (List.length (filteredPrompts env (selectedGenre s)) =? 0)%nat
    eqn:Hlen; simpl.
  - apply length_zero_nil in Hlen. split; [discriminate|].
    intros [p [Hin Hm]].
    pose proof (filteredPrompts_complete env _ p Hin Hm) as Hf.
    rewrite Hlen in Hf. contradiction.
  - split; [|reflexivity]. intros _.
    destruct (filteredPrompts env (selectedGenre s)) as [|p rest] eqn:Hf;
      [discriminate|].
    exists p.
    assert (Hin : In p (filteredPrompts env (selectedGenre s)))
      by (rewrite Hf; left; reflexivity).
    destruct (filteredPrompts_sound env _ p Hin) as [HP Hg].
    split; [exact HP|].
    destruct (String.eqb_spec (selectedGenre s) "All") as [Hall | Hall];
      [left; exact Hall | right; apply Hg; exact Hall].
Qed.

(** Change Genre undoes Generate a Prompt: after a successful
    [handleGeneratePrompt] followed by the Change Genre click no prompt
    is selected, the idea list is empty, the error is cleared, and the
    loading flag and the selected genre are what they were, whichever
    prompt was drawn. *)
Theorem generate_then_change_genre
    (env : Env) (svc : Prompt -> Outcome) (r : Random) (s : State) :
  filteredPrompts env (selectedGenre s) <> [] ->
  run svc onChangeGenreClick (run svc (handleGeneratePrompt env r s) s)
  = {| currentPrompt := None; storyIdeas := [];
       isLoadingIdeas := isLoadingIdeas s; error := None;
       selectedGenre := selectedGenre s |}.
Proof.
  intros Hne. unfold handleGeneratePrompt.
  destruct (List.length (filteredPrompts env (selectedGenre s)) =? 0)%nat
    eqn:Hlen.
  - apply length_zero_nil in Hlen. contradiction.
  - reflexivity.
Qed.

Lemma generate_then_change_genre_witness :
  run serviceUp onChangeGenreClick
    (run serviceUp (handleGeneratePrompt sampleEnv lateDraw sampleIdle) sampleIdle)
  = {| currentPrompt := None; storyIdeas := [];
       isLoadingIdeas := false; error := None;
       selectedGenre := "Fantasy" |}.
Proof.
  apply (generate_then_change_genre sampleEnv serviceUp lateDraw sampleIdle).
  discriminate.
Defined.

(** ** Requests over time *)

(** X12: only one kind of event can put ideas on a page without a
    prompt: the settling of the call in flight with a non-empty result
    after the prompt has been cleared.  Every click and every failed
    call keeps the idea list empty unless a prompt is selected. *)
Theorem ideas_without_prompt_only_by_late_result
    (env : Env) (ev : Event) (pg pg' : Page) :
  reachable env pg ->
  step env ev pg = Some pg' ->
  ideasNeedPrompt (state pg) = true ->
  ideasNeedPrompt (state pg') = false ->
  currentPrompt (state pg) = None
  /\ exists ideas, ev = Settle 0 (Resolved ideas) /\ ideas <> [].
Proof.
  intros Hr Hstep Hok Hbad.
  pose proof (step_cases env ev pg pg' Hr Hstep) as Hc.
  destruct ev; cbv beta iota zeta in Hc.
  - destruct Hc as [_ [_ [_ Hst]]]. rewrite Hst in Hbad. discriminate.
  - destruct Hc as [_ [_ Hst]]. rewrite Hst in Hbad.
    destruct (handleGeneratePrompt_cases env r (state pg))
      as [[_ He] | [q [_ [_ He]]]]; rewrite He in Hbad.
    + unfold ideasNeedPrompt, promptShown in *. simpl in Hbad. congruence.
    + discriminate.
  - destruct Hc as [_ [_ Hst]]. rewrite Hst in Hbad. discriminate.
  - destruct Hc as [q [_ [_ [_ [_ [_ Hst]]]]]]. rewrite Hst in Hbad.
    discriminate.
  - destruct Hc as [-> [_ [_ [_ [_ Hst]]]]]. rewrite Hst in Hbad.
    destruct o as [ideas | e]; [|discriminate].
    unfold ideasNeedPrompt, promptShown in Hbad. simpl in Hbad.
    destruct ideas as [|x rest]; [discriminate|].
    destruct (currentPrompt (state pg)); [discriminate|].
    split; [reflexivity|]. exists (x :: rest). split; [reflexivity|discriminate].
Qed.

Lemma ideas_without_prompt_only_by_late_result_witness :
  exists pg pg',
    steps sampleEnv
      [ClickGeneratePrompt firstDraw; ClickSparkCreativity; ClickChangeGenre]
      initialPage = Some pg
    /\ step sampleEnv (Settle 0 (Resolved sampleIdeas)) pg = Some pg'
    /\ currentPrompt (state pg) = None
    /\ exists ideas,
         Settle 0 (Resolved sampleIdeas) = Settle 0 (Resolved ideas)
         /\ ideas <> [].
Proof.
  eexists. eexists. split; [reflexivity|]. split; [reflexivity|].
  eapply (ideas_without_prompt_only_by_late_result sampleEnv).
  - exists [ClickGeneratePrompt firstDraw; ClickSparkCreativity;
            ClickChangeGenre]. reflexivity.
  - reflexivity.
  - reflexivity.
  - reflexivity.
Defined.

(** X13: nothing is retried by the code, but the user can retry: once
    the call has settled, with ideas or with an error, Spark Creativity
    works again on the prompt then shown and starts one new call for
    that prompt, clearing the error and the idea list. *)
Theorem spark_again_after_settling
    (env : Env) (pg pg' : Page) (i : nat) (o : Outcome) (p : Prompt) :
  reachable env pg ->
  step env (Settle i o) pg = Some pg' ->
  currentPrompt (state pg') = Some p ->
  step env ClickSparkCreativity pg'
  = Some {| state := {| currentPrompt := Some p; storyIdeas := [];
                        isLoadingIdeas := true; error := None;
                        selectedGenre := selectedGenre (state pg') |};
            inFlight := [(p, handleGenerateIdeas_resume)] |}.
Proof.
  intros Hr Hstep Hp.
  pose proof (step_cases env _ pg pg' Hr Hstep) as Hc.
  cbv beta iota zeta in Hc.
  destruct Hc as [_ [_ [_ [[q Hq] [Hfl Hst]]]]].
  assert (Hkey : hasApiKey env = true).
  { apply (reachable_inFlight_key env pg Hr). rewrite Hq. discriminate. }
  assert (Hld : isLoadingIdeas (state pg') = false).
  { rewrite Hst. destruct o as [ideas | e]; reflexivity. }
  unfold step, promptShown, sparkDisabled, handleGenerateIdeas, dispatch.
  rewrite Hp, Hld, Hkey, Hfl. simpl. rewrite Hp. reflexivity.
Qed.

Lemma spark_again_after_settling_witness :
  exists pg',
    step sampleEnv (Settle 0 (Rejected (thrownValue None))) sampleLoading
    = Some pg'
    /\ error (state pg') = Some "An unknown error occurred."
    /\ step sampleEnv ClickSparkCreativity pg' = Some sampleLoading.
Proof.
  eexists. split; [reflexivity|]. split; [reflexivity|].
  exact (spark_again_after_settling sampleEnv sampleLoading _ 0
           (Rejected (thrownValue None))
           {| genre := "Fantasy"; text := "A dragon opens a bakery." |}
           (ex_intro _ [ClickGeneratePrompt firstDraw; ClickSparkCreativity]
                     eq_refl)
           eq_refl eq_refl).
Defined.

(** X14: every accepted Spark Creativity click starts exactly one call
    and every call settles at most once: along any sequence of events
    from the initial page, the clicks are as many as the settled calls
    plus the calls still in flight. *)
Theorem requests_accounting (env : Env) (evs : list Event) (pg : Page) :
  steps env evs initialPage = Some pg ->
  List.length (filter isSpark evs)
  = List.length (filter isSettle evs) + List.length (inFlight pg).
Proof.
  revert pg. induction evs as [|ev evs IH] using rev_ind; intros pg Hrun.
  - injection Hrun as <-. reflexivity.
  - rewrite steps_app in Hrun.
    destruct (steps env evs initialPage) as [pg1|] eqn:Hpre; [|discriminate].
    simpl in Hrun.
    destruct (step env ev pg1) as [pg2|] eqn:Hev; [|discriminate].
    injection Hrun as <-.
    assert (Hr : reachable env pg1) by (exists evs; exact Hpre).
    pose proof (step_cases env ev pg1 pg2 Hr Hev) as Hc.
    specialize (IH pg1 eq_refl).
    rewrite !filter_app, !length_app, IH.
    destruct ev; cbv beta iota zeta in Hc; simpl.
    + destruct Hc as [_ [_ [-> _]]]. lia.
    + destruct Hc as [_ [-> _]]. lia.
    + destruct Hc as [_ [-> _]]. lia.
    + destruct Hc as [q [_ [_ [_ [-> [-> _]]]]]]. simpl. lia.
    + destruct Hc as [_ [_ [_ [[q ->] [-> _]]]]]. simpl. lia.
Qed.

Lemma requests_accounting_witness :
  List.length
    (filter isSpark
       [ClickGeneratePrompt firstDraw; ClickSparkCreativity;
        Settle 0 (Resolved sampleIdeas); ClickSparkCreativity])
  = List.length
      (filter isSettle
         [ClickGeneratePrompt firstDraw; ClickSparkCreativity;
          Settle 0 (Resolved sampleIdeas); ClickSparkCreativity])
    + List.length (inFlight sampleLoading).
Proof.
  apply (requests_accounting sampleEnv). reflexivity.
Defined.

(** X15: the result of a call is stored whatever prompt is on the page
    by then.  For any two prompts of [PROMPTS] there is a page with the
    call for the first in flight and the second shown (Change Genre and
    Generate a Prompt stay usable while loading), and when that call
    resolves its ideas are listed under the second prompt. *)
Theorem result_shown_under_another_prompt
    (env : Env) (i j : nat) (p1 p2 : Prompt) (ideas : list string) :
  hasApiKey env = true ->
  nth_error (PROMPTS env) i = Some p1 ->
  nth_error (PROMPTS env) j = Some p2 ->
  exists pg pg',
    reachable env pg
    /\ inFlight pg = [(p1, handleGenerateIdeas_resume)]
    /\ currentPrompt (state pg) = Some p2
    /\ step env (Settle 0 (Resolved ideas)) pg = Some pg'
    /\ currentPrompt (state pg') = Some p2
    /\ storyIdeas (state pg') = ideas.
Proof.
  intros Hkey H1 H2.
  assert (Hi : i < List.length (PROMPTS env))
    by (apply nth_error_Some; congruence).
  assert (Hj : j < List.length (PROMPTS env))
    by (apply nth_error_Some; congruence).
  destruct (draw_for_index _ i Hi) as [r1 Hr1].
  destruct (draw_for_index _ j Hj) as [r2 Hr2].
  assert (Hlen : (List.length (PROMPTS env) =? 0)%nat = false)
    by (apply Nat.eqb_neq; lia).
  eexists. eexists. split; [|split; [|split; [|split; [|split]]]].
  - exists [ClickGeneratePrompt r1; ClickSparkCreativity; ClickChangeGenre;
            ClickGeneratePrompt r2].
    unfold steps, step, dispatch, handleGeneratePrompt, handleGenerateIdeas,
      filteredPrompts, promptShown, sparkDisabled.
    simpl. rewrite Hlen. simpl. rewrite Hr1, H1, Hkey. simpl.
    rewrite Hlen. simpl. rewrite Hr2, H2. reflexivity.
  - reflexivity.
  - reflexivity.
  - reflexivity.
  - reflexivity.
  - reflexivity.
Qed.

Lemma result_shown_under_another_prompt_witness :
  exists pg pg',
    reachable sampleEnv pg
    /\ inFlight pg
       = [({| genre := "Fantasy"; text := "A dragon opens a bakery." |},
           handleGenerateIdeas_resume)]
    /\ currentPrompt (state pg)
       = Some {| genre := "Sci-Fi";
                 text := "The last radio signal answers back." |}
    /\ step sampleEnv (Settle 0 (Resolved sampleIdeas)) pg = Some pg'
    /\ currentPrompt (state pg')
       = Some {| genre := "Sci-Fi";
                 text := "The last radio signal answers back." |}
    /\ storyIdeas (state pg') = sampleIdeas.
Proof.
  apply (result_shown_under_another_prompt sampleEnv 0 1); reflexivity.
Defined.

(** ** The flow of the page *)

(** C4, as the claim words it, fails: a call that resolves with an empty
    list takes the loading page to one that shows neither ideas (the
    Story Concepts block needs a non-empty list) nor an error. *)
Lemma loading_flow_empty_result :
  reachable sampleEnv sampleLoading
  /\ isLoadingIdeas (state sampleLoading) = true
  /\ (exists pg',
        step sampleEnv (Settle 0 (Resolved [])) sampleLoading = Some pg'
        /\ isLoadingIdeas (state pg') = false
        /\ storyConcepts (render sampleEnv (state pg')) = []
        /\ errorBanner (render sampleEnv (state pg')) = None)
  /\ ~ (forall env pg ev pg',
          reachable env pg ->
          isLoadingIdeas (state pg) = true ->
          step env ev pg = Some pg' ->
          isLoadingIdeas (state pg') = false ->
          storyConcepts (render env (state pg')) <> []
          \/ errorBanner (render env (state pg')) <> None).
Proof.
  assert (Hr : reachable sampleEnv sampleLoading).
  { exists [ClickGeneratePrompt firstDraw; ClickSparkCreativity]. reflexivity. }
  split; [exact Hr|]. split; [reflexivity|]. split.
  - eexists. split; [reflexivity|]. repeat split.
  - intros Hall.
    destruct (Hall sampleEnv sampleLoading (Settle 0 (Resolved [])) _
                   Hr eq_refl eq_refl eq_refl) as [H | H];
      apply H; reflexivity.
Qed.

(** C4, amended: the page goes idle, prompt shown, loading, settled.
    From the idle page Generate a Prompt shows a prompt whenever one
    matches, and nothing else makes a prompt appear.  With no current
    prompt [handleGenerateIdeas] returns at once, touching nothing and
    calling nothing.  On a page that shows a prompt, with a key and
    nothing loading, Spark Creativity raises the loading flag and puts
    one call in flight, and the flag is raised in no other way.  A
    loading page always has that call in flight; the flag goes down
    only when it settles, and then: on success the idea list is the
    returned sequence and the cards show exactly it, so ideas are shown
    when the sequence is non-empty; on a rejection with a value other
    than [null] and [undefined] the error banner shows the message or
    the fallback.  What follows a rejection with [null] or [undefined]
    is not part of this statement. *)
Theorem loading_flow (env : Env) :
  (forall s, currentPrompt s = None ->
             handleGenerateIdeas env s = Return
             /\ exec (handleGenerateIdeas env s) s = (s, None))
  /\ (forall pg r,
        reachable env pg ->
        currentPrompt (state pg) = None ->
        filteredPrompts env (selectedGenre (state pg)) <> [] ->
        exists pg' p,
          step env (ClickGeneratePrompt r) pg = Some pg'
          /\ currentPrompt (state pg') = Some p
          /\ In p (PROMPTS env)
          /\ isLoadingIdeas (state pg') = isLoadingIdeas (state pg)
          /\ inFlight pg' = inFlight pg)
  /\ (forall pg ev pg' p,
        reachable env pg -> step env ev pg = Some pg' ->
        currentPrompt (state pg) = None ->
        currentPrompt (state pg') = Some p ->
        exists r, ev = ClickGeneratePrompt r)
  /\ (forall pg p,
        reachable env pg ->
        currentPrompt (state pg) = Some p ->
        isLoadingIdeas (state pg) = false ->
        hasApiKey env = true ->
        step env ClickSparkCreativity pg
        = Some {| state := {| currentPrompt := Some p; storyIdeas := [];
                              isLoadingIdeas := true; error := None;
                              selectedGenre := selectedGenre (state pg) |};
                  inFlight := [(p, handleGenerateIdeas_resume)] |})
  /\ (forall pg ev pg',
        reachable env pg -> step env ev pg = Some pg' ->
        isLoadingIdeas (state pg) = false ->
        isLoadingIdeas (state pg') = true ->
        ev = ClickSparkCreativity
        /\ exists p, currentPrompt (state pg) = Some p)
  /\ (forall pg o,
        reachable env pg -> isLoadingIdeas (state pg) = true ->
        exists pg', step env (Settle 0 o) pg = Some pg'
                    /\ isLoadingIdeas (state pg') = false
                    /\ inFlight pg' = [])
  /\ (forall pg ev pg',
        reachable env pg -> step env ev pg = Some pg' ->
        isLoadingIdeas (state pg) = true ->
        isLoadingIdeas (state pg') = false ->
        exists o,
          ev = Settle 0 o
          /\ match o with
             | Resolved ideas =>
                 storyIdeas (state pg') = ideas
                 /\ map cardIdea (storyConcepts (render env (state pg')))
                    = ideas
             | Rejected (thrownValue m) =>
                 error (state pg')
                 = Some (message_or m "An unknown error occurred.")
                 /\ errorBanner (render env (state pg'))
                    = Some {| bannerText :=
                                message_or m "An unknown error occurred.";
                              apiKeyHint := negb (hasApiKey env) |}
             | Rejected thrownNullish => True
             end).
Proof.
  split; [|split; [|split; [|split; [|split; [|split]]]]].
  - intros s Hp. unfold handleGenerateIdeas. rewrite Hp. split; reflexivity.
  - intros pg r Hr Hnone Hne.
    assert (Hstep : step env (ClickGeneratePrompt r) pg
                    = Some (dispatch (handleGeneratePrompt env r (state pg))
                                     (inFlight pg) (state pg))).
    { unfold step, promptShown. rewrite Hnone. reflexivity. }
    pose proof (step_cases env _ pg _ Hr Hstep) as Hc.
    cbv beta iota zeta in Hc. destruct Hc as [_ [Hfl Hst]].
    destruct (handleGeneratePrompt_cases env r (state pg))
      as [[Hnil _] | [p [_ [Hin He]]]]; [contradiction|].
    eexists. exists p. split; [exact Hstep|].
    rewrite Hst, He. simpl.
    split; [reflexivity|]. split; [|split; [reflexivity | exact Hfl]].
    apply (filteredPrompts_sound env _ p Hin).
  - intros pg ev pg' p Hr Hstep Hnone Hsome.
    pose proof (step_cases env ev pg pg' Hr Hstep) as Hc.
    destruct ev; cbv beta iota zeta in Hc.
    + destruct Hc as [_ [_ [_ Hst]]]. rewrite Hst in Hsome. discriminate.
    + exists r. reflexivity.
    + destruct Hc as [_ [_ Hst]]. rewrite Hst in Hsome. discriminate.
    + destruct Hc as [q [Hq _]]. congruence.
    + destruct Hc as [_ [_ [_ [_ [_ Hst]]]]]. rewrite Hst in Hsome.
      destruct o; simpl in Hsome; congruence.
  - intros pg p Hr Hp Hld Hkey.
    destruct (reachable_pageInv env pg Hr)
      as [[Hfl _] | [q [_ [Hld' _]]]]; [|congruence].
    unfold step, promptShown, sparkDisabled, handleGenerateIdeas, dispatch.
    rewrite Hp, Hld, Hkey, Hfl. simpl. rewrite Hp. reflexivity.
  - intros pg ev pg' Hr Hstep Hoff Hon.
    pose proof (step_cases env ev pg pg' Hr Hstep) as Hc.
    destruct ev; cbv beta iota zeta in Hc.
    + destruct Hc as [_ [_ [_ Hst]]]. rewrite Hst in Hon. simpl in Hon.
      congruence.
    + destruct Hc as [_ [_ Hst]]. rewrite Hst in Hon.
      destruct (handleGeneratePrompt_cases env r (state pg))
        as [[_ He] | [q [_ [_ He]]]]; rewrite He in Hon; simpl in Hon;
        congruence.
    + destruct Hc as [_ [_ Hst]]. rewrite Hst in Hon. simpl in Hon.
      congruence.
    + destruct Hc as [q [Hq _]]. split; [reflexivity|]. exists q. exact Hq.
    + destruct Hc as [_ [Hld _]]. congruence.
  - intros pg o Hr Hon.
    destruct (loading_iff_inFlight env pg Hr Hon) as [p Hfl].
    unfold step. rewrite Hfl. simpl. eexists. split; [reflexivity|].
    unfold dispatch. destruct o as [ideas | [|m]]; split; reflexivity.
  - intros pg ev pg' Hr Hstep Hon Hoff.
    pose proof (step_cases env ev pg pg' Hr Hstep) as Hc.
    destruct ev; cbv beta iota zeta in Hc.
    + destruct Hc as [_ [_ [_ Hst]]]. rewrite Hst in Hoff. simpl in Hoff.
      congruence.
    + destruct Hc as [_ [_ Hst]]. rewrite Hst in Hoff.
      destruct (handleGeneratePrompt_cases env r (state pg))
        as [[_ He] | [q [_ [_ He]]]]; rewrite He in Hoff; simpl in Hoff;
        congruence.
    + destruct Hc as [_ [_ Hst]]. rewrite Hst in Hoff. simpl in Hoff.
      congruence.
    + destruct Hc as [q [_ [Hld _]]]. congruence.
    + destruct Hc as [-> [_ [_ [_ [_ Hst]]]]].
      exists o. split; [reflexivity|]. rewrite Hst.
      destruct o as [ideas | [|m]]; simpl.
      * split; [reflexivity|].
        apply renderIdeas_shows_list.
      * exact I.
      * split; [reflexivity|].
        unfold renderError. simpl.
        destruct m as [[|c rest]|]; reflexivity.
Qed.

Lemma loading_flow_witness :
  exists shown settled,
    step sampleEnv (ClickGeneratePrompt firstDraw) initialPage = Some shown
    /\ currentPrompt (state shown) = nth_error samplePrompts 0
    /\ step sampleEnv ClickSparkCreativity shown = Some sampleLoading
    /\ step sampleEnv (Settle 0 (Resolved sampleIdeas)) sampleLoading
       = Some settled
    /\ isLoadingIdeas (state settled) = false
    /\ inFlight settled = [].
Proof.
  pose proof (loading_flow sampleEnv)
    as [_ [_ [_ [Hspark [_ [Hsettle _]]]]]].
  assert (Hshown : reachable sampleEnv
                     (dispatch (handleGeneratePrompt sampleEnv firstDraw
                                  initialState) [] initialState)).
  { exists [ClickGeneratePrompt firstDraw]. reflexivity. }
  assert (Hloading : reachable sampleEnv sampleLoading).
  { exists [ClickGeneratePrompt firstDraw; ClickSparkCreativity]. reflexivity. }
  destruct (Hsettle sampleLoading (Resolved sampleIdeas) Hloading eq_refl)
    as [settled [Hstep [Hoff Hfl]]].
  eexists. exists settled.
  split; [reflexivity|]. split; [reflexivity|].
  split; [|split; [exact Hstep | split; [exact Hoff | exact Hfl]]].
  exact (Hspark _ {| genre := "Fantasy"; text := "A dragon opens a bakery." |}
                Hshown eq_refl eq_refl eq_refl).
Defined.
